(** * Veo Video Weaver: the generation workflow

    A shallow embedding of [services/geminiService.ts] (the encoder
    [fileToBase64], the table [LOADING_MESSAGES] and the orchestration
    [generateVideo]) and of the session state of [App.tsx]
    ([handleGenerateVideo], the reset button, the submit button), with the
    properties of the workflow proved over it.

    The browser and the remote service are a host: an abstract state
    together with the operations the code calls on it.  An asynchronous
    function is a computation over the host that records, in order, every
    call it makes and every progress message it emits. *)

From Stdlib Require Import String Ascii List Arith NArith Bool Lia.
From ExtLib Require Import Structures.Monad.
Import ListNotations.
Import MonadNotation.
Local Open Scope string_scope.
Local Open Scope list_scope.
Local Open Scope monad_scope.

Set Implicit Arguments.

(** ** JavaScript strings *)

Module Js.

(** [s.split(sep)] for a one-character separator: the segments between the
    occurrences of [sep], in order; never the empty array. *)
Fixpoint split (sep : ascii) (s : string) : list string :=
  match s with
  | EmptyString => [EmptyString]
  | String c s' =>
      if Ascii.eqb c sep then EmptyString :: split sep s'
      else match split sep s' with
           | [] => [String c EmptyString]
           | seg :: segs => String c seg :: segs
           end
  end.

(** [s.includes(sub)]: [sub] occurs in [s] at some offset. *)
Fixpoint includes (s sub : string) : bool :=
  if String.prefix sub s then true
  else match s with
       | EmptyString => false
       | String _ s' => includes s' sub
       end.

(** Truthiness of a [string | null | undefined] value: [null],
    [undefined] and the empty string are falsy. *)
Definition truthy (v : option string) : bool :=
  match v with
  | None => false
  | Some s => negb (String.eqb s "")
  end.

(** [a || b] on such values, [b] a string. *)
Definition or_else (v : option string) (b : string) : string :=
  match v with
  | Some s => if String.eqb s "" then b else s
  | None => b
  end.

(** A value interpolated in a template literal: [undefined] prints as the
    word. *)
Definition interpolate (v : option string) : string :=
  match v with
  | Some s => s
  | None => "undefined"
  end.

(** No occurrence of the character [c] in [s]. *)
Fixpoint lacks (c : ascii) (s : string) : bool :=
  match s with
  | EmptyString => true
  | String d s' => negb (Ascii.eqb d c) && lacks c s'
  end.

End Js.

(** ** Values of the program *)

(** What a promise can be rejected with in this program: an [Error] carrying
    a message, or the event object a [FileReader] hands to [onerror], which
    has no [message] property. *)
Inductive Thrown : Type :=
| JsError (message : string)
| ReaderErrorEvent.

Definition message_of (e : Thrown) : option string :=
  match e with
  | JsError m => Some m
  | ReaderErrorEvent => None
  end.

Record File : Type := mkFile {
  file_name : string;
  file_type : string
}.

(** [reader.result] when [onload] fires, or the [onerror] callback. *)
Inductive ReaderOutcome : Type :=
| LoadedString (result : string)
| LoadedOther
| ReaderFailed.

(** Modelled from the spec: the type [AspectRatio] of [types.ts], which is
    not among the sources.  The spec gives it two values, landscape and
    portrait; [App.tsx] writes them ['16:9'] and ['9:16']. *)
Inductive AspectRatio : Type := Ratio16x9 | Ratio9x16.

(** Modelled from the spec: the operation handle, which the SDK declares and
    the sources only use.  The spec gives it a boolean completion flag and
    an optional result holding a list of descriptors, each with an optional
    location; the field names are those of the optional chain
    [response?.generatedVideos?.[0]?.video?.uri] of [generateVideo]. *)
Record Video : Type := mkVideo { uri : option string }.
Record GeneratedVideo : Type := mkGeneratedVideo { video : option Video }.
Record GenerateVideosResponse : Type := mkResponse {
  generatedVideos : option (list GeneratedVideo)
}.
Record Operation : Type := mkOperation {
  op_name : string;
  done : bool;
  response : option GenerateVideosResponse
}.

Record ImageInput : Type := mkImage {
  imageBytes : option string;
  mimeType : string
}.
Record VideoConfig : Type := mkConfig {
  numberOfVideos : nat;
  resolution : string;
  cfg_aspectRatio : AspectRatio
}.
Record GenerateVideosParameters : Type := mkParams {
  model : string;
  req_prompt : string;
  image : ImageInput;
  config : VideoConfig
}.

Record HttpResponse : Type := mkHttp {
  status : nat;
  statusText : string;
  body : string
}.

(** [Response.ok]: the status is in the range 200 to 299. *)
Definition ok (r : HttpResponse) : bool :=
  Nat.leb 200 (status r) && Nat.leb (status r) 299.

Inductive Blob : Type :=
| BlobOfFile (f : File)
| BlobOfBody (bytes : string).

(** ** Asynchronous computations over a host *)

(** Every call the code makes on its environment, with what the call gave
    back, and every message passed to the [onProgress] callback. *)
Inductive Event : Type :=
| EvReadAsDataURL (file : File) (r : ReaderOutcome)
| EvProgress (message : string)
| EvGenerateVideos (apiKey : option string) (params : GenerateVideosParameters)
    (r : Thrown + Operation)
| EvSleep (ms : N)
| EvGetVideosOperation (apiKey : option string) (operation : Operation)
    (r : Thrown + Operation)
| EvFetch (url : string) (r : Thrown + HttpResponse)
| EvBlob (resp : HttpResponse) (r : Thrown + Blob)
| EvCreateObjectURL (b : Blob) (url : string)
| EvOpenSelectKey (r : Thrown + unit).

(** How an [async] function stands: resolved, rejected, or still awaiting
    (the poll loop has no bound, so a run of bounded length may be
    unfinished). *)
Inductive Completion (A : Type) : Type :=
| Resolved (a : A)
| Rejected (e : Thrown)
| Pending.
Arguments Rejected {A} e.
Arguments Pending {A}.

Definition settled {A : Type} (c : Completion A) : bool :=
  match c with
  | Pending => false
  | _ => true
  end.

Record Run (W A : Type) : Type := mkRun {
  trace : list Event;
  outcome : Completion A;
  host_after : W
}.

(** The environment: the build-time credential [process.env.API_KEY], the
    [FileReader], the SDK's two remote calls, [fetch], [Response.blob],
    [URL.createObjectURL] and the host dialog [window.aistudio.openSelectKey],
    each a transition of the host state. *)
Record Host (W : Type) : Type := mkHost {
  API_KEY : option string;
  readAsDataURL : File -> W -> ReaderOutcome * W;
  generateVideos :
    option string -> GenerateVideosParameters -> W -> (Thrown + Operation) * W;
  getVideosOperation :
    option string -> Operation -> W -> (Thrown + Operation) * W;
  fetch : string -> W -> (Thrown + HttpResponse) * W;
  blob : HttpResponse -> W -> (Thrown + Blob) * W;
  createObjectURL : Blob -> W -> string * W;
  openSelectKey : W -> (Thrown + unit) * W
}.

Section Async.

Variable W : Type.

Definition Async (A : Type) : Type := W -> Run W A.

Definition async_ret {A : Type} (a : A) : Async A :=
  fun s => mkRun [] (Resolved a) s.

Definition async_bind {A B : Type} (m : Async A) (k : A -> Async B) : Async B :=
  fun s =>
    let r := m s in
    match outcome r with
    | Resolved a =>
        let r' := k a (host_after r) in
        mkRun (trace r ++ trace r') (outcome r') (host_after r')
    | Rejected e => mkRun (trace r) (Rejected e) (host_after r)
    | Pending => mkRun (trace r) Pending (host_after r)
    end.

#[export] Instance Monad_Async : Monad Async :=
  {| ret := @async_ret; bind := @async_bind |}.

(** [throw e] *)
Definition reject {A : Type} (e : Thrown) : Async A :=
  fun s => mkRun [] (Rejected e) s.

Definition pending {A : Type} : Async A :=
  fun s => mkRun [] Pending s.

Definition emit (ev : Event) : Async unit :=
  fun s => mkRun [ev] (Resolved tt) s.

(** [await call]: one call on the host, logged with its result; a rejected
    promise is rethrown at the [await]. *)
Definition await {A : Type} (call : W -> (Thrown + A) * W)
    (log : Thrown + A -> Event) : Async A :=
  fun s =>
    let (r, s') := call s in
    mkRun [log r]
      (match r with inl e => Rejected e | inr a => Resolved a end) s'.

End Async.

Arguments reject {W A} e.
Arguments pending {W A}.
Arguments emit {W} ev.
Arguments await {W A} call log.

(** ** The generation service ([services/geminiService.ts]) *)

Definition LOADING_MESSAGES : list string :=
  [ "Warming up the video engine...";
    "Contacting creative AI director...";
    "Storyboarding your prompt...";
    "Setting up the virtual cameras...";
    "Rendering initial frames (this can take a few minutes)...";
    "Applying cinematic lighting and effects...";
    "Your vision is materializing, please wait...";
    "Enhancing color and texture...";
    "Adding the final touches to your masterpiece...";
    "Almost there, compiling the final video file..." ].

(** [LOADING_MESSAGES[i]] *)
Definition message_at (i : nat) : string := nth i LOADING_MESSAGES "".

(** What the [onload] and [onerror] callbacks of [fileToBase64] settle the
    promise with. *)
Definition settle_reader (r : ReaderOutcome) : Completion (option string) :=
  match r with
  | LoadedString result => Resolved (nth_error (Js.split "," result) 1)
  | LoadedOther => Rejected (JsError "Failed to read file as base64 string.")
  | ReaderFailed => Rejected ReaderErrorEvent
  end.

(** [a?.f] *)
Definition opt_chain {A B : Type} (a : option A) (f : A -> option B) : option B :=
  match a with
  | Some x => f x
  | None => None
  end.

(** [operation.response?.generatedVideos?.[0]?.video?.uri] *)
Definition downloadLink (operation : Operation) : option string :=
  opt_chain (opt_chain (opt_chain (opt_chain (response operation)
    generatedVideos) (fun vs => nth_error vs 0)) video) uri.

Definition request (prompt : string) (imageBase64 : option string)
    (imageFile : File) (aspectRatio : AspectRatio) : GenerateVideosParameters :=
  {| model := "veo-3.1-fast-generate-preview";
     req_prompt := prompt;
     image := {| imageBytes := imageBase64; mimeType := file_type imageFile |};
     config := {| numberOfVideos := 1; resolution := "720p";
                  cfg_aspectRatio := aspectRatio |} |}.

Section Service.

Variable W : Type.
Variable H : Host W.

Definition fileToBase64 (file : File) : Async W (option string) :=
  fun s =>
    let (r, s') := readAsDataURL H file s in
    mkRun [EvReadAsDataURL file r] (settle_reader r) s'.

Definition onProgress (message : string) : Async W unit :=
  emit (EvProgress message).

Definition sleep (ms : N) : Async W unit := emit (EvSleep ms).

(** The [while (!operation.done)] loop; [fuel] bounds the number of
    iterations a run is followed for. *)
Fixpoint pollLoop (fuel pollCount : nat) (operation : Operation)
    : Async W Operation :=
  if done operation then ret operation
  else
    match fuel with
    | O => pending
    | S fuel' =>
        onProgress (message_at (pollCount mod length LOADING_MESSAGES)) ;;
        sleep 10000%N ;;
        operation' <- await (getVideosOperation H (API_KEY H) operation)
                        (EvGetVideosOperation (API_KEY H) operation) ;;
        pollLoop fuel' (S pollCount) operation'
    end.

(** [URL.createObjectURL(b)] *)
Definition objectURL (b : Blob) : Async W string :=
  fun s =>
    let (url, s') := createObjectURL H b s in
    mkRun [EvCreateObjectURL b url] (Resolved url) s'.

(** Lines 67 to 81: from the finished operation to the object URL. *)
Definition download (operation : Operation) : Async W string :=
  let downloadLink := downloadLink operation in
  if negb (Js.truthy downloadLink) then
    reject (JsError "Video generation completed, but no download link was found.")
  else
    onProgress "Downloading your generated video..." ;;
    videoResponse <-
      await (fetch H (Js.interpolate downloadLink ++ "&key="
                        ++ Js.interpolate (API_KEY H)))
            (EvFetch (Js.interpolate downloadLink ++ "&key="
                        ++ Js.interpolate (API_KEY H))) ;;
    if negb (ok videoResponse) then
      reject (JsError ("Failed to download video: " ++ statusText videoResponse))
    else
      videoBlob <- await (blob H videoResponse) (EvBlob videoResponse) ;;
      objectURL videoBlob.

Definition generateVideo (fuel : nat) (prompt : string) (imageFile : File)
    (aspectRatio : AspectRatio) : Async W string :=
  imageBase64 <- fileToBase64 imageFile ;;
  onProgress (message_at 0) ;;
  operation <-
    await (generateVideos H (API_KEY H)
             (request prompt imageBase64 imageFile aspectRatio))
          (EvGenerateVideos (API_KEY H)
             (request prompt imageBase64 imageFile aspectRatio)) ;;
  operation <- pollLoop fuel 1 operation ;;
  download operation.

End Service.

(** ** The session ([App.tsx]) *)

Record AppState : Type := mkApp {
  apiKeySelected : bool;
  prompt : string;
  imageFile : option File;
  previewUrl : option string;
  aspectRatio : AspectRatio;
  isLoading : bool;
  loadingMessage : string;
  generatedVideoUrl : option string;
  error : option string
}.

(** The values the nine [useState] hooks start from. *)
Definition initialState : AppState :=
  {| apiKeySelected := false; prompt := ""; imageFile := None;
     previewUrl := None; aspectRatio := Ratio16x9; isLoading := false;
     loadingMessage := ""; generatedVideoUrl := None; error := None |}.

(** A call of one of the state setters. *)
Inductive SetState : Type :=
| SetApiKeySelected (v : bool)
| SetPrompt (v : string)
| SetImageFile (v : option File)
| SetPreviewUrl (v : option string)
| SetAspectRatio (v : AspectRatio)
| SetIsLoading (v : bool)
| SetLoadingMessage (v : string)
| SetGeneratedVideoUrl (v : option string)
| SetError (v : option string).

Definition update (st : AppState) (u : SetState) : AppState :=
  match u with
  | SetApiKeySelected v =>
      mkApp v (prompt st) (imageFile st) (previewUrl st) (aspectRatio st)
        (isLoading st) (loadingMessage st) (generatedVideoUrl st) (error st)
  | SetPrompt v =>
      mkApp (apiKeySelected st) v (imageFile st) (previewUrl st) (aspectRatio st)
        (isLoading st) (loadingMessage st) (generatedVideoUrl st) (error st)
  | SetImageFile v =>
      mkApp (apiKeySelected st) (prompt st) v (previewUrl st) (aspectRatio st)
        (isLoading st) (loadingMessage st) (generatedVideoUrl st) (error st)
  | SetPreviewUrl v =>
      mkApp (apiKeySelected st) (prompt st) (imageFile st) v (aspectRatio st)
        (isLoading st) (loadingMessage st) (generatedVideoUrl st) (error st)
  | SetAspectRatio v =>
      mkApp (apiKeySelected st) (prompt st) (imageFile st) (previewUrl st) v
        (isLoading st) (loadingMessage st) (generatedVideoUrl st) (error st)
  | SetIsLoading v =>
      mkApp (apiKeySelected st) (prompt st) (imageFile st) (previewUrl st)
        (aspectRatio st) v (loadingMessage st) (generatedVideoUrl st) (error st)
  | SetLoadingMessage v =>
      mkApp (apiKeySelected st) (prompt st) (imageFile st) (previewUrl st)
        (aspectRatio st) (isLoading st) v (generatedVideoUrl st) (error st)
  | SetGeneratedVideoUrl v =>
      mkApp (apiKeySelected st) (prompt st) (imageFile st) (previewUrl st)
        (aspectRatio st) (isLoading st) (loadingMessage st) v (error st)
  | SetError v =>
      mkApp (apiKeySelected st) (prompt st) (imageFile st) (previewUrl st)
        (aspectRatio st) (isLoading st) (loadingMessage st)
        (generatedVideoUrl st) v
  end.

(** The state once the setter calls of a handler, in order, have taken
    effect. *)
Definition commit (st : AppState) (us : list SetState) : AppState :=
  fold_left update us st.

(** [setLoadingMessage] is the [onProgress] callback: one call per progress
    message of the run. *)
Definition progressUpdates (tr : list Event) : list SetState :=
  flat_map (fun ev => match ev with
                      | EvProgress m => [SetLoadingMessage m]
                      | _ => []
                      end) tr.

(** The [catch] block of [handleGenerateVideo]. *)
Definition catchUpdates (e : Thrown) : list SetState :=
  let errorMessage := Js.or_else (message_of e) "An unknown error occurred." in
  if Js.includes errorMessage "Requested entity was not found" then
    [ SetApiKeySelected false;
      SetError (Some "Your API key is invalid or has been revoked. Please select a new key.") ]
  else [ SetError (Some errorMessage) ].

(** The [finally] block. *)
Definition finallyUpdates : list SetState :=
  [ SetIsLoading false; SetLoadingMessage "" ].

(** What one invocation of a handler did: its setter calls in order, and the
    run of [generateVideo] when it was called. *)
Record Handled (W : Type) : Type := mkHandled {
  updates : list SetState;
  attempt : option (Run W string)
}.

Section App.

Variable W : Type.
Variable H : Host W.

(** The submit handler, run from the state [st] its closure captured: the
    two guards, then the three setter calls before the [try], the
    [setLoadingMessage] calls [generateVideo] makes through [onProgress],
    and, once the call has settled, the [try] or [catch] branch followed by
    the [finally] block. *)
Definition handleGenerateVideo (fuel : nat) (st : AppState) (s : W)
    : Handled W :=
  match imageFile st with
  | None => mkHandled [SetError (Some "Please upload an image first.")] None
  | Some file =>
      if negb (apiKeySelected st) then
        mkHandled
          [SetError (Some "Please select an API key before generating a video.")]
          None
      else
        let r := generateVideo H fuel (prompt st) file (aspectRatio st) s in
        mkHandled
          ([SetIsLoading true; SetError None; SetGeneratedVideoUrl None]
             ++ progressUpdates (trace r)
             ++ match outcome r with
                | Resolved videoUrl =>
                    SetGeneratedVideoUrl (Some videoUrl) :: finallyUpdates
                | Rejected e => catchUpdates e ++ finallyUpdates
                | Pending => []
                end)
          (Some r)
  end.

Definition handleImageSelect (file : File) (s : W) : list SetState * W :=
  let (url, s') := createObjectURL H (BlobOfFile file) s in
  ([SetImageFile (Some file); SetPreviewUrl (Some url)], s').

Definition handleSelectApiKey (s : W) : list SetState * W :=
  let (r, s') := openSelectKey H s in
  (match r with
   | inr _ => [SetApiKeySelected true]
   | inl _ => [SetError (Some "Failed to open the API key selection dialog.")]
   end, s').

End App.

(** The [onClick] of the button "Create Another Video". *)
Definition resetUpdates : list SetState :=
  [ SetGeneratedVideoUrl None; SetImageFile None; SetPreviewUrl None;
    SetPrompt ""; SetError None ].

(** The button rendered at the bottom of the form: the reset button when a
    video reference is present, the submit button (with its [disabled]
    attribute) otherwise. *)
Inductive ActionButton : Type :=
| CreateAnotherVideo
| GenerateVideo (disabled : bool).

Definition actionButton (st : AppState) : ActionButton :=
  if Js.truthy (generatedVideoUrl st) then CreateAnotherVideo
  else GenerateVideo
         (isLoading st
          || match imageFile st with None => true | Some _ => false end
          || negb (apiKeySelected st)).

(** [!apiKeySelected && <ApiKeySelector ... />] *)
Definition keySelectorShown (st : AppState) : bool := negb (apiKeySelected st).

(** A click on the reset button, where the render offers one. *)
Definition clickReset (st : AppState) : option AppState :=
  match actionButton st with
  | CreateAnotherVideo => Some (commit st resetUpdates)
  | GenerateVideo _ => None
  end.

(** The state of a fresh form: nothing selected, nothing shown, not loading.
    The credential gate and the aspect ratio are the session's. *)
Definition idleState (gate : bool) (ratio : AspectRatio) : AppState :=
  {| apiKeySelected := gate; prompt := ""; imageFile := None;
     previewUrl := None; aspectRatio := ratio; isLoading := false;
     loadingMessage := ""; generatedVideoUrl := None; error := None |}.

(** ** Scripted hosts

    A host that answers from a script: the reader's outcome, the answer to
    the submission, the answers to the successive status checks (the host
    state counts the checks made; past the end of the script the handle
    comes back unchanged), the answer to the download. *)

Module Scenario.

Record Script : Type := mkScript {
  key : option string;
  reader : ReaderOutcome;
  submitted : Thrown + Operation;
  polls : list (Thrown + Operation);
  fetched : Thrown + HttpResponse
}.

Definition host (sc : Script) : Host nat :=
  {| API_KEY := key sc;
     readAsDataURL := fun _ n => (reader sc, n);
     generateVideos := fun _ _ n => (submitted sc, n);
     getVideosOperation := fun _ op n => (nth n (polls sc) (inr op), S n);
     fetch := fun _ n => (fetched sc, n);
     blob := fun r n => (inr (BlobOfBody (body r)), n);
     createObjectURL := fun _ n => ("blob:https://app.example/0001", n);
     openSelectKey := fun n => (inr tt, n) |}.

Definition photo : File := mkFile "photo.jpg" "image/jpeg".

Definition photoDataURL : string := "data:image/jpeg;base64,/9j/4AAQSkZJRg==".

Definition running : Operation := mkOperation "operations/cat" false None.

Definition finished (link : option string) : Operation :=
  mkOperation "operations/cat" true
    (Some (mkResponse (Some [mkGeneratedVideo (Some (mkVideo link))]))).

Definition finishedEmpty : Operation :=
  mkOperation "operations/cat" true (Some (mkResponse (Some []))).

Definition catLink : string := "https://videos.example/v1/cat.mp4?alt=media".

Definition http200 : HttpResponse := mkHttp 200 "OK" "mp4-bytes".
Definition http403 : HttpResponse := mkHttp 403 "Forbidden" "".

(** Two status checks find the job running, the third finds it done with a
    location; the download succeeds. *)
Definition happy : Script :=
  mkScript (Some "KEY") (LoadedString photoDataURL) (inr running)
    [inr running; inr running; inr (finished (Some catLink))] (inr http200).


(** The submission is refused: the credential is not known to the
    service. *)
Definition revoked : Script :=
  mkScript (Some "KEY") (LoadedString photoDataURL)
    (inl (JsError "404: Requested entity was not found."))
    [] (inr http200).

(** The submission fails for another reason. *)
Definition quota : Script :=
  mkScript (Some "KEY") (LoadedString photoDataURL)
    (inl (JsError "429: Resource has been exhausted.")) [] (inr http200).

(** The job finishes at once; the download is refused. *)
Definition forbidden : Script :=
  mkScript (Some "KEY") (LoadedString photoDataURL)
    (inr (finished (Some catLink))) [] (inr http403).

(** The job never finishes. *)
Definition stuck : Script :=
  mkScript (Some "KEY") (LoadedString photoDataURL) (inr running) []
    (inr http200).

(** A session with the photo selected and the gate open. *)
Definition armed : AppState :=
  {| apiKeySelected := true; prompt := "a cat running";
     imageFile := Some photo;
     previewUrl := Some "blob:https://app.example/0000";
     aspectRatio := Ratio16x9; isLoading := false; loadingMessage := "";
     generatedVideoUrl := None; error := None |}.

(** The runs of [generateVideo] and of the submit handler against these
    scripts, followed for up to five turns of the loop. *)
Definition run (sc : Script) : Run nat string :=
  generateVideo (host sc) 5 "a cat running" photo Ratio16x9 0.

Definition submit (sc : Script) (st : AppState) : Handled nat :=
  handleGenerateVideo (host sc) 5 st 0.

Definition after (sc : Script) (st : AppState) : AppState :=
  commit st (updates (submit sc st)).

End Scenario.

(** ** The data URL of a file *)




(** ** Reading a trace *)

(** The operation handle an event hands to the program: the result of a
    successful submission or status check. *)
Definition observed (ev : Event) : option Operation :=
  match ev with
  | EvGenerateVideos _ _ (inr op) => Some op
  | EvGetVideosOperation _ _ (inr op) => Some op
  | _ => None
  end.

Definition observesDone (ev : Event) : bool :=
  match observed ev with
  | Some op => done op
  | None => false
  end.

(** The last handle observed along a trace, [cur] if none is. *)
Fixpoint lastObserved (cur : option Operation) (tr : list Event)
    : option Operation :=
  match tr with
  | [] => cur
  | ev :: tr' =>
      lastObserved (match observed ev with Some op => Some op | None => cur end)
        tr'
  end.

(** A trace keeps the polling discipline when, [seen] telling whether a
    finished handle has been observed so far, every status check is made
    before any finished handle is observed and on a handle that is not
    finished, and every download after one is. *)
Fixpoint disciplined (seen : bool) (tr : list Event) : bool :=
  match tr with
  | [] => true
  | ev :: tr' =>
      match ev with
      | EvGetVideosOperation _ op _ => negb seen && negb (done op)
      | EvFetch _ _ => seen
      | _ => true
      end && disciplined (seen || observesDone ev) tr'
  end.

Definition isFetch (ev : Event) : bool :=
  match ev with EvFetch _ _ => true | _ => false end.

Definition isSleep (ev : Event) : bool :=
  match ev with EvSleep _ => true | _ => false end.

(** The progress messages of a trace, in order. *)
Definition progressMessages (tr : list Event) : list string :=
  flat_map (fun ev => match ev with EvProgress m => [m] | _ => [] end) tr.

(** The message showing when the [n]-th wait of a trace starts ([n] counted
    from 1): the last one emitted before it, [last] if none was. *)
Fixpoint messageBeforeWait (last : option string) (n : nat) (tr : list Event)
    : option string :=
  match tr with
  | [] => None
  | EvProgress m :: tr' => messageBeforeWait (Some m) n tr'
  | EvSleep _ :: tr' =>
      match n with
      | 0 => None
      | 1 => last
      | S n' => messageBeforeWait last n' tr'
      end
  | _ :: tr' => messageBeforeWait last n tr'
  end.

(** The events of one turn of the poll loop entered with [pollCount = c] on
    the handle [op], the status check answering [r]. *)
Definition turn (apiKey : option string) (c : nat) (op : Operation)
    (r : Thrown + Operation) : list Event :=
  [ EvProgress (message_at (c mod 10)); EvSleep 10000%N;
    EvGetVideosOperation apiKey op r ].

(** What the poll loop, entered with [pollCount = c] on the handle [op], can
    have done: nothing, the handle being finished; nothing yet; turns that
    each found the job running, closed by a failed status check, by a
    finished handle, or still going on. *)
Inductive Polled (apiKey : option string)
    : nat -> Operation -> list Event -> Completion Operation -> Prop :=
| Polled_done c op :
    done op = true -> Polled apiKey c op [] (Resolved op)
| Polled_waiting c op :
    done op = false -> Polled apiKey c op [] Pending
| Polled_failed c op e :
    done op = false ->
    Polled apiKey c op (turn apiKey c op (inl e)) (Rejected e)
| Polled_turn c op op' tr out :
    done op = false ->
    Polled apiKey (S c) op' tr out ->
    Polled apiKey c op (turn apiKey c op (inr op') ++ tr) out.

(** The number of waits of a trace. *)
Definition waits (tr : list Event) : nat := length (filter isSleep tr).

(** The authorization-failure signature: the thrown value has a message
    and the message contains "Requested entity was not found". *)
Definition credentialSignature (e : Thrown) : bool :=
  match message_of e with
  | Some m => Js.includes m "Requested entity was not found"
  | None => false
  end.

(** ** The rest of the page ([App.tsx]) *)

(** [window.aistudio] as [checkApiKey] uses it: whether the object is there,
    and its probe [hasSelectedApiKey]. *)
Record Studio (W : Type) : Type := mkStudio {
  aistudio : bool;
  hasSelectedApiKey : W -> (Thrown + bool) * W
}.

(** The area above the form: the player when a video reference is present,
    else the loading indicator while loading, else the image picker. *)
Inductive MainView : Type :=
| VideoPlayer (src : string)
| LoadingIndicator (message : string)
| ImageUpload (preview : option string).

Definition mainView (st : AppState) : MainView :=
  if Js.truthy (generatedVideoUrl st) then
    VideoPlayer (Js.interpolate (generatedVideoUrl st))
  else if isLoading st then LoadingIndicator (loadingMessage st)
  else ImageUpload (previewUrl st).

(** [{error && <div ...>{error}</div>}] *)
Definition errorBanner (st : AppState) : option string :=
  if Js.truthy (error st) then error st else None.

(** What the user can do to the page. *)
Inductive UIEvent : Type :=
| ChangeFiles (files : option (list File))
| ChangePrompt (value : string)
| ClickRatio (ratio : AspectRatio)
| ClickAction
| ClickSelectKey.

(** What can happen to a session: a user event, or the probe started when
    the page was mounted settling. *)
Inductive Happening : Type :=
| User (ev : UIEvent)
| ProbeSettles.

Section Page.

Variable W : Type.
Variable H : Host W.
Variable A : Studio W.

Definition checkApiKey (s : W) : list SetState * W :=
  if aistudio A then
    let (r, s') := hasSelectedApiKey A s in
    (match r with
     | inr selected =>
         if selected then [SetApiKeySelected true]
         else [SetApiKeySelected false]
     | inl _ => [SetApiKeySelected false]
     end, s')
  else ([SetApiKeySelected false], s).

(** [handleFileChange] of [ImageUpload]: the first file of the list, when
    there is one, goes to [onImageSelect]. *)
Definition handleFileChange (files : option (list File)) (s : W)
    : list SetState * W :=
  match files with
  | Some (file :: _) => handleImageSelect H file s
  | _ => ([], s)
  end.

(** One user event on the page rendered from [st].  A control that is not
    rendered, or is rendered disabled, does nothing: the file input lives in
    the image picker, the prompt and the ratio buttons carry
    [disabled={isLoading}], the bottom button is the reset button or the
    submit button with its [disabled] attribute, and the key dialog button
    lives in the key selector.  A handler runs to its end, the submit
    handler for as long as [fuel] lets the poll loop be followed. *)
Definition dispatch (fuel : nat) (st : AppState) (ev : UIEvent) (s : W)
    : AppState * W :=
  match ev with
  | ChangeFiles files =>
      match mainView st with
      | ImageUpload _ =>
          let (us, s') := handleFileChange files s in (commit st us, s')
      | _ => (st, s)
      end
  | ChangePrompt value =>
      if isLoading st then (st, s) else (commit st [SetPrompt value], s)
  | ClickRatio ratio =>
      if isLoading st then (st, s) else (commit st [SetAspectRatio ratio], s)
  | ClickAction =>
      match actionButton st with
      | CreateAnotherVideo => (commit st resetUpdates, s)
      | GenerateVideo true => (st, s)
      | GenerateVideo false =>
          let h := handleGenerateVideo H fuel st s in
          (commit st (updates h),
           match attempt h with
           | Some r => host_after r
           | None => s
           end)
      end
  | ClickSelectKey =>
      if keySelectorShown st then
        let (us, s') := handleSelectApiKey H s in (commit st us, s')
      else (st, s)
  end.

Definition happen (fuel : nat) (st : AppState) (h : Happening) (s : W)
    : AppState * W :=
  match h with
  | User ev => dispatch fuel st ev s
  | ProbeSettles => let (us, s') := checkApiKey s in (commit st us, s')
  end.

(** A session: the page mounted in its initial state, then the happenings
    one after the other. *)
Fixpoint session (fuel : nat) (st : AppState) (hs : list Happening) (s : W)
    : AppState * W :=
  match hs with
  | [] => (st, s)
  | h :: hs' =>
      let (st', s') := happen fuel st h s in session fuel st' hs' s'
  end.

End Page.

(** The error a failed call of an event raised, if the call failed. *)
Definition failed (ev : Event) : option Thrown :=
  match ev with
  | EvReadAsDataURL _ r =>
      match settle_reader r with
      | Rejected e => Some e
      | _ => None
      end
  | EvGenerateVideos _ _ (inl e) => Some e
  | EvGetVideosOperation _ _ (inl e) => Some e
  | EvFetch _ (inl e) => Some e
  | EvBlob _ (inl e) => Some e
  | _ => None
  end.

(** A trace fails fast towards [out]: its first failed call is its last
    event, and [out] is the rejection with that call's error. *)
Fixpoint failFast {A : Type} (out : Completion A) (tr : list Event) : Prop :=
  match tr with
  | [] => True
  | ev :: tr' =>
      match failed ev with
      | Some e => tr' = [] /\ out = Rejected e
      | None => failFast out tr'
      end
  end.

(** No call of the trace failed. *)
Definition failureFree (tr : list Event) : bool :=
  forallb (fun ev => match failed ev with
                     | Some _ => false
                     | None => true
                     end) tr.

(** The handles passed to the status checks of a trace, and the handles the
    submission and the status checks returned, in order. *)
Definition polledHandles (tr : list Event) : list Operation :=
  flat_map (fun ev => match ev with
                      | EvGetVideosOperation _ op _ => [op]
                      | _ => []
                      end) tr.

Definition observedHandles (tr : list Event) : list Operation :=
  flat_map (fun ev => match observed ev with
                      | Some op => [op]
                      | None => []
                      end) tr.

(** The waits and the status checks of a trace, in order. *)
Definition pacing (tr : list Event) : list Event :=
  filter (fun ev => match ev with
                    | EvSleep _ => true
                    | EvGetVideosOperation _ _ _ => true
                    | _ => false
                    end) tr.

Definition statusChecks (tr : list Event) : list Event :=
  filter (fun ev => match ev with
                    | EvGetVideosOperation _ _ _ => true
                    | _ => false
                    end) tr.

(** A page state is coherent when the preview is there exactly when an image
    is selected, the loading message is empty unless the page is loading,
    the page is not loading while it shows a video, and it loads only with
    an image selected and no video reference. *)
Definition coherent (st : AppState) : Prop :=
  (imageFile st = None <-> previewUrl st = None)
  /\ (isLoading st = false -> loadingMessage st = "")
  /\ (Js.truthy (generatedVideoUrl st) = true -> isLoading st = false)
  /\ (isLoading st = true ->
      imageFile st <> None /\ generatedVideoUrl st = None).

(** Scripts for the page: a probe that finds no key, and a reader that
    fails. *)
Module PageScenario.

Definition noStudio : Studio nat := mkStudio false (fun n => (inr true, n)).

Definition keyed : Studio nat := mkStudio true (fun n => (inr true, n)).

Definition probeThrows : Studio nat :=
  mkStudio true (fun n => (inl (JsError "aistudio is not ready"), n)).

Definition unreadable : Scenario.Script :=
  Scenario.mkScript (Some "KEY") ReaderFailed (inr Scenario.running) []
    (inr Scenario.http200).

Definition binary : Scenario.Script :=
  Scenario.mkScript (Some "KEY") LoadedOther (inr Scenario.running) []
    (inr Scenario.http200).

Definition commaFree : Scenario.Script :=
  Scenario.mkScript (Some "KEY") (LoadedString "data:") (inr Scenario.running)
    [inr Scenario.finishedEmpty] (inr Scenario.http200).

Definition pollFails : Scenario.Script :=
  Scenario.mkScript (Some "KEY") (LoadedString Scenario.photoDataURL)
    (inr Scenario.running)
    [inr Scenario.running; inl (JsError "503: Service unavailable.")]
    (inr Scenario.http200).

Definition twoCommas : Scenario.Script :=
  Scenario.mkScript (Some "KEY")
    (LoadedString "data:image/png;base64,AAAA,BBBB") (inr Scenario.running) []
    (inr Scenario.http200).

(** The host of the happy script with a key dialog that cannot be opened. *)
Definition dialogFails : Host nat :=
  let h := Scenario.host Scenario.happy in
  mkHost (API_KEY h) (readAsDataURL h) (generateVideos h)
    (getVideosOperation h) (fetch h) (blob h) (createObjectURL h)
    (fun n => (inl (JsError "aistudio is undefined"), n)).

(** The host of the happy script with a key dialog that opens as long as no
    status check has been made and cannot be opened afterwards. *)
Definition dialogFailsLater : Host nat :=
  let h := Scenario.host Scenario.happy in
  mkHost (API_KEY h) (readAsDataURL h) (generateVideos h)
    (getVideosOperation h) (fetch h) (blob h) (createObjectURL h)
    (fun n => match n with
              | O => (inr tt, n)
              | S _ => (inl (JsError "aistudio is undefined"), n)
              end).

(** A session that ends on a page showing a video, with the gate closed by
    the probe and the error of a key dialog that could not be opened. *)
Definition readyWithError : list Happening :=
  [ User ClickSelectKey; User (ChangeFiles (Some [Scenario.photo]));
    User ClickAction; ProbeSettles; User ClickSelectKey ].


End PageScenario.

(** * Properties *)

(** ** Strings *)

Module JsFacts.
Import Js.

Lemma split_not_nil (c : ascii) (s : string) : split c s <> [].
Proof.
  induction s as [|d s IH]; simpl; [discriminate|].
  destruct (Ascii.eqb d c); [discriminate|].
  destruct (split c s); discriminate.
Qed.

(** A segment free of the separator is glued to the first segment of what
    follows it. *)
Lemma split_app_lacks (c : ascii) (h t : string) :
  lacks c h = true ->
  split c (h ++ t) = (h ++ hd "" (split c t))%string :: tl (split c t).
Proof.
  induction h as [|d h IH]; simpl; intros Hl.
  - pose proof (split_not_nil c t) as Hn.
    destruct (split c t); [contradiction | reflexivity].
  - apply andb_prop in Hl. destruct Hl as [Hd Hh].
    apply negb_true_iff in Hd. rewrite Hd, (IH Hh). reflexivity.
Qed.

Lemma split_lacks (c : ascii) (s : string) :
  lacks c s = true -> split c s = [s].
Proof.
  induction s as [|d s IH]; simpl; intros Hl; [reflexivity|].
  apply andb_prop in Hl. destruct Hl as [Hd Hs].
  apply negb_true_iff in Hd. rewrite Hd, (IH Hs). reflexivity.
Qed.

Lemma prefix_app (p t : string) : String.prefix p (p ++ t) = true.
Proof.
  induction p as [|d p IH]; simpl; [destruct t; reflexivity|].
  destruct (ascii_dec d d); [assumption | congruence].
Qed.

Lemma prefix_inv (p s : string) :
  String.prefix p s = true -> exists t, s = (p ++ t)%string.
Proof.
  revert s. induction p as [|d p IH]; intros s Hp.
  - exists s. reflexivity.
  - destruct s as [|e s]; simpl in Hp; [discriminate|].
    destruct (ascii_dec d e) as [->|]; [|discriminate].
    destruct (IH s Hp) as [t ->]. exists t. reflexivity.
Qed.

(** [includes] finds exactly the substrings. *)
Lemma includes_spec (s sub : string) :
  includes s sub = true <-> exists a b, s = (a ++ sub ++ b)%string.
Proof.
  split.
  - induction s as [|d s IH]; cbn [includes].
    + destruct (String.prefix sub "") eqn:Hp; [|discriminate].
      intros _. apply prefix_inv in Hp. destruct Hp as [t Ht].
      exists "", t. exact Ht.
    + destruct (String.prefix sub (String d s)) eqn:Hp.
      * intros _. apply prefix_inv in Hp. destruct Hp as [t Ht].
        exists "", t. exact Ht.
      * intros Hi. destruct (IH Hi) as (a & b & ->).
        exists (String d a), b. reflexivity.
  - intros (a & b & ->). induction a as [|d a IH]; cbn [append].
    + pose proof (prefix_app sub b) as Hp.
      destruct (sub ++ b)%string; cbn [includes]; rewrite Hp; reflexivity.
    + cbn [includes].
      destruct (String.prefix sub (String d (a ++ sub ++ b)%string));
        [reflexivity | exact IH].
Qed.

End JsFacts.

(** ** The encoder *)



Section EncoderFacts.

Variable W : Type.
Variable H : Host W.


End EncoderFacts.

(** ** The poll loop *)

Lemma LOADING_MESSAGES_length : length LOADING_MESSAGES = 10.
Proof. reflexivity. Qed.

Section LoopFacts.

Variable W : Type.
Variable H : Host W.

Lemma pollLoop_done (fuel c : nat) (op : Operation) (s : W) :
  done op = true -> pollLoop H fuel c op s = mkRun [] (Resolved op) s.
Proof. intros Hd. destruct fuel; cbn [pollLoop]; rewrite Hd; reflexivity. Qed.

Lemma pollLoop_O (c : nat) (op : Operation) (s : W) :
  done op = false -> pollLoop H 0 c op s = mkRun [] Pending s.
Proof. intros Hd. cbn [pollLoop]. rewrite Hd. reflexivity. Qed.

Lemma pollLoop_S (fuel c : nat) (op : Operation) (s : W) :
  done op = false ->
  pollLoop H (S fuel) c op s =
  match getVideosOperation H (API_KEY H) op s with
  | (inl e, s') => mkRun (turn (API_KEY H) c op (inl e)) (Rejected e) s'
  | (inr op', s') =>
      let l := pollLoop H fuel (S c) op' s' in
      mkRun (turn (API_KEY H) c op (inr op') ++ trace l) (outcome l)
        (host_after l)
  end.
Proof.
  intros Hd. cbn [pollLoop]. rewrite Hd, LOADING_MESSAGES_length.
  unfold turn, onProgress, sleep, emit, await.
  cbn [bind Monad_Async]. unfold async_bind. cbn beta zeta.
  cbn [trace outcome host_after app].
  destruct (getVideosOperation H (API_KEY H) op s) as [[e|op'] s'];
    reflexivity.
Qed.

Lemma pollLoop_Polled (fuel c : nat) (op : Operation) (s : W) :
  Polled (API_KEY H) c op (trace (pollLoop H fuel c op s))
    (outcome (pollLoop H fuel c op s)).
Proof.
  revert c op s. induction fuel as [|fuel IH]; intros c op s.
  - destruct (done op) eqn:Hd.
    + rewrite pollLoop_done by exact Hd. now constructor.
    + rewrite pollLoop_O by exact Hd. now constructor.
  - destruct (done op) eqn:Hd.
    + rewrite pollLoop_done by exact Hd. now constructor.
    + rewrite pollLoop_S by exact Hd.
      destruct (getVideosOperation H (API_KEY H) op s) as [[e|op'] s'].
      * now constructor.
      * cbn [trace outcome]. constructor; [exact Hd | apply IH].
Qed.

(** The loop gives up only for want of fuel: an unfinished run has made
    every status check it had fuel for. *)
Lemma pollLoop_Pending (fuel c : nat) (op : Operation) (s : W) :
  outcome (pollLoop H fuel c op s) = Pending ->
  waits (trace (pollLoop H fuel c op s)) = fuel.
Proof.
  revert c op s. induction fuel as [|fuel IH]; intros c op s.
  - destruct (done op) eqn:Hd.
    + rewrite pollLoop_done by exact Hd. discriminate.
    + rewrite pollLoop_O by exact Hd. reflexivity.
  - destruct (done op) eqn:Hd.
    + rewrite pollLoop_done by exact Hd. discriminate.
    + rewrite pollLoop_S by exact Hd.
      destruct (getVideosOperation H (API_KEY H) op s) as [[e|op'] s'].
      * discriminate.
      * cbn [trace outcome]. intros Hp. unfold waits, turn.
        cbn [app filter isSleep length]. f_equal. apply (IH _ _ _ Hp).
Qed.

(** More fuel does not change a run that has settled. *)
Lemma pollLoop_more_fuel (fuel extra c : nat) (op : Operation) (s : W) :
  settled (outcome (pollLoop H fuel c op s)) = true ->
  pollLoop H (fuel + extra) c op s = pollLoop H fuel c op s.
Proof.
  revert c op s. induction fuel as [|fuel IH]; intros c op s.
  - destruct (done op) eqn:Hd.
    + now rewrite !pollLoop_done by exact Hd.
    + rewrite pollLoop_O by exact Hd. discriminate.
  - cbn [Nat.add]. destruct (done op) eqn:Hd.
    + now rewrite !pollLoop_done by exact Hd.
    + rewrite !pollLoop_S by exact Hd.
      destruct (getVideosOperation H (API_KEY H) op s) as [[e|op'] s'].
      * reflexivity.
      * cbn [outcome]. intros Hs. now rewrite (IH _ _ _ Hs).
Qed.

End LoopFacts.

(** ** Facts about traces *)

Lemma disciplined_app (seen : bool) (a b : list Event) :
  disciplined seen (a ++ b)
  = disciplined seen a && disciplined (seen || existsb observesDone a) b.
Proof.
  revert seen. induction a as [|ev a IH]; intros seen; cbn [app disciplined existsb].
  - now rewrite orb_false_r.
  - rewrite IH, andb_assoc, orb_assoc. reflexivity.
Qed.

Lemma lastObserved_app (cur : option Operation) (a b : list Event) :
  lastObserved cur (a ++ b) = lastObserved (lastObserved cur a) b.
Proof.
  revert cur. induction a as [|ev a IH]; intros cur; cbn [app lastObserved];
    [reflexivity | apply IH].
Qed.

Lemma waits_app (a b : list Event) : waits (a ++ b) = waits a + waits b.
Proof. unfold waits. now rewrite filter_app, length_app. Qed.

Lemma message_at_nth_error (n : nat) :
  nth_error LOADING_MESSAGES (n mod 10) = Some (message_at (n mod 10)).
Proof.
  unfold message_at. apply nth_error_nth'.
  rewrite LOADING_MESSAGES_length. apply Nat.mod_upper_bound. discriminate.
Qed.

Section PolledFacts.

Variable apiKey : option string.

Lemma Polled_disciplined c op tr out :
  Polled apiKey c op tr out -> disciplined (done op) tr = true.
Proof.
  induction 1 as [c op Hd|c op Hd|c op e Hd|c op op' tr out Hd _ IH].
  - reflexivity.
  - reflexivity.
  - unfold turn. cbn [disciplined]. now rewrite Hd.
  - unfold turn. cbn [app disciplined observesDone observed].
    rewrite Hd. cbn [negb andb orb]. exact IH.
Qed.

(** The loop returns a handle only when it is finished, and then it is the
    last handle observed. *)
Lemma Polled_resolved c op tr out op' :
  Polled apiKey c op tr out ->
  out = Resolved op' ->
  done op' = true /\ lastObserved (Some op) tr = Some op'
  /\ (done op || existsb observesDone tr = true).
Proof.
  induction 1 as [c op Hd|c op Hd|c op e Hd|c op op1 tr out Hd _ IH];
    intros Ho; try discriminate.
  - injection Ho as <-. rewrite Hd. repeat split.
  - destruct (IH Ho) as (Hd' & Hl & Hs). unfold turn.
    cbn [app lastObserved observed existsb observesDone].
    repeat split; [exact Hd' | exact Hl |].
    rewrite Hd in *. cbn [orb] in *. destruct (done op1); [reflexivity|].
    exact Hs.
Qed.


Lemma Polled_no_fetch c op tr out :
  Polled apiKey c op tr out -> filter isFetch tr = [].
Proof.
  induction 1 as [c op Hd|c op Hd|c op e Hd|c op op1 tr out Hd _ IH];
    try reflexivity.
  unfold turn. cbn [app filter isFetch]. exact IH.
Qed.

(** The [n]-th wait of the loop starts under the message of index
    [(c + n - 1) mod 10], whatever follows the loop. *)
Lemma Polled_messageBeforeWait c op tr out :
  Polled apiKey c op tr out ->
  forall last n rest,
    1 <= n <= waits tr ->
    messageBeforeWait last n (tr ++ rest)
    = Some (message_at ((c + n - 1) mod 10)).
Proof.
  induction 1 as [c op Hd|c op Hd|c op e Hd|c op op1 tr out Hd _ IH];
    intros last n rest Hn.
  - cbn in Hn. lia.
  - cbn in Hn. lia.
  - unfold waits, turn in Hn. cbn [filter isSleep length] in Hn.
    assert (n = 1) as -> by lia.
    unfold turn. cbn [app messageBeforeWait].
    now replace (c + 1 - 1) with c by lia.
  - rewrite waits_app in Hn. unfold waits at 1 in Hn. unfold turn in Hn.
    cbn [filter isSleep length] in Hn.
    unfold turn. rewrite <- app_assoc. cbn [app messageBeforeWait].
    destruct n as [|[|n]]; [lia | |].
    + now replace (c + 1 - 1) with c by lia.
    + rewrite (IH _ (S n) rest) by lia.
      now replace (S c + S n - 1) with (c + S (S n) - 1) by lia.
Qed.

End PolledFacts.

(** What the discipline says, event by event. *)

Lemma disciplined_poll (seen : bool) (tr : list Event) k op r :
  disciplined seen tr = true ->
  In (EvGetVideosOperation k op r) tr ->
  seen = false /\ done op = false.
Proof.
  revert seen. induction tr as [|ev tr IH]; intros seen Hd Hin; [destruct Hin|].
  cbn [disciplined] in Hd. apply andb_prop in Hd. destruct Hd as [Hev Htr].
  destruct Hin as [->|Hin].
  - apply andb_prop in Hev. destruct Hev as [Hs Ho].
    now rewrite negb_true_iff in Hs, Ho.
  - destruct (IH _ Htr Hin) as [Hs Ho]. split; [|exact Ho].
    now apply orb_false_elim in Hs.
Qed.

Lemma disciplined_after_done (seen : bool) (pre post : list Event) ev :
  disciplined seen (pre ++ ev :: post) = true ->
  observesDone ev = true ->
  disciplined true post = true.
Proof.
  rewrite disciplined_app. intros Hd Hev. apply andb_prop in Hd.
  destruct Hd as [_ Hd]. cbn [disciplined] in Hd. apply andb_prop in Hd.
  destruct Hd as [_ Hd]. now rewrite Hev, orb_true_r in Hd.
Qed.

Lemma disciplined_fetch (pre post : list Event) url r :
  disciplined false (pre ++ EvFetch url r :: post) = true ->
  exists ev, In ev pre /\ observesDone ev = true.
Proof.
  rewrite disciplined_app. intros Hd. apply andb_prop in Hd.
  destruct Hd as [_ Hd]. cbn [disciplined orb] in Hd. apply andb_prop in Hd.
  destruct Hd as [Hs _]. apply existsb_exists. exact Hs.
Qed.

Lemma filter_nil_not_In (f : Event -> bool) (tr : list Event) ev :
  filter f tr = [] -> f ev = true -> ~ In ev tr.
Proof.
  intros Hf Hev Hin. assert (In ev (filter f tr)) as Hin'
    by (apply filter_In; split; assumption).
  rewrite Hf in Hin'. destruct Hin'.
Qed.

(** ** The orchestration *)

Section ServiceFacts.

Variable W : Type.
Variable H : Host W.

Let apiKey : option string := API_KEY H.

(** The address the download is made at. *)
Let target (operation : Operation) : string :=
  (Js.interpolate (downloadLink operation) ++ "&key="
     ++ Js.interpolate apiKey)%string.

Lemma download_run (operation : Operation) (s : W) :
  download H operation s =
  if negb (Js.truthy (downloadLink operation)) then
    mkRun []
      (Rejected
         (JsError "Video generation completed, but no download link was found."))
      s
  else
    let announce := EvProgress "Downloading your generated video..." in
    match fetch H (target operation) s with
    | (inl e, s1) =>
        mkRun [announce; EvFetch (target operation) (inl e)] (Rejected e) s1
    | (inr resp, s1) =>
        if negb (ok resp) then
          mkRun [announce; EvFetch (target operation) (inr resp)]
            (Rejected
               (JsError ("Failed to download video: " ++ statusText resp)))
            s1
        else
          match blob H resp s1 with
          | (inl e, s2) =>
              mkRun [announce; EvFetch (target operation) (inr resp);
                     EvBlob resp (inl e)] (Rejected e) s2
          | (inr b, s2) =>
              mkRun [announce; EvFetch (target operation) (inr resp);
                     EvBlob resp (inr b);
                     EvCreateObjectURL b (fst (createObjectURL H b s2))]
                (Resolved (fst (createObjectURL H b s2)))
                (snd (createObjectURL H b s2))
          end
    end.
Proof.
  unfold download, target, apiKey.
  destruct (negb (Js.truthy (downloadLink operation))); [reflexivity|].
  unfold onProgress, emit, await, objectURL.
  cbn [bind Monad_Async]. unfold async_bind. cbn beta zeta.
  cbn [trace outcome host_after app].
  destruct (fetch H _ s) as [[e|resp] s1]; [reflexivity|].
  cbn [trace outcome host_after app].
  destruct (negb (ok resp)); [reflexivity|].
  cbn [trace outcome host_after app].
  destruct (blob H resp s1) as [[e|b] s2]; [reflexivity|].
  cbn [trace outcome host_after app].
  destruct (createObjectURL H b s2) as [url s3]. reflexivity.
Qed.

Lemma generateVideo_run (fuel : nat) (prompt : string) (file : File)
    (ratio : AspectRatio) (s : W) :
  generateVideo H fuel prompt file ratio s =
  let rd := fst (readAsDataURL H file s) in
  let s1 := snd (readAsDataURL H file s) in
  match settle_reader rd with
  | Resolved imageBase64 =>
      let req := request prompt imageBase64 file ratio in
      let opening r :=
        [EvReadAsDataURL file rd; EvProgress (message_at 0);
         EvGenerateVideos apiKey req r] in
      match generateVideos H apiKey req s1 with
      | (inl e, s2) => mkRun (opening (inl e)) (Rejected e) s2
      | (inr op0, s2) =>
          let l := pollLoop H fuel 1 op0 s2 in
          match outcome l with
          | Resolved op =>
              let d := download H op (host_after l) in
              mkRun (opening (inr op0) ++ trace l ++ trace d) (outcome d)
                (host_after d)
          | Rejected e =>
              mkRun (opening (inr op0) ++ trace l) (Rejected e) (host_after l)
          | Pending =>
              mkRun (opening (inr op0) ++ trace l) Pending (host_after l)
          end
      end
  | Rejected e => mkRun [EvReadAsDataURL file rd] (Rejected e) s1
  | Pending => mkRun [EvReadAsDataURL file rd] Pending s1
  end.
Proof.
  unfold generateVideo, fileToBase64, onProgress, emit, await, apiKey.
  cbn [bind Monad_Async]. unfold async_bind. cbn beta zeta.
  destruct (readAsDataURL H file s) as [rd s1].
  cbn [fst snd trace outcome host_after app].
  destruct (settle_reader rd) as [b64|e|]; try reflexivity.
  cbn [trace outcome host_after app].
  destruct (generateVideos H (API_KEY H) _ s1) as [[e|op0] s2];
    [reflexivity|].
  cbn [trace outcome host_after app].
  destruct (outcome (pollLoop H fuel 1 op0 s2)); reflexivity.
Qed.

Ltac download_cases H operation s :=
  rewrite download_run;
  destruct (negb (Js.truthy (downloadLink operation))); [reflexivity|];
  cbv zeta;
  let e := fresh "e" in let resp := fresh "resp" in let s1 := fresh "s" in
  destruct (fetch H _ s) as [[e|resp] s1]; [reflexivity|];
  destruct (negb (ok resp)); [reflexivity|];
  let b := fresh "b" in let s2 := fresh "s" in
  destruct (blob H resp s1) as [[e|b] s2]; reflexivity.

Lemma download_disciplined (operation : Operation) (s : W) :
  disciplined true (trace (download H operation s)) = true.
Proof. download_cases H operation s. Qed.

Lemma download_waits (operation : Operation) (s : W) :
  waits (trace (download H operation s)) = 0.
Proof. download_cases H operation s. Qed.

Lemma download_lastObserved (cur : option Operation) (operation : Operation)
    (s : W) :
  lastObserved cur (trace (download H operation s)) = cur.
Proof. download_cases H operation s. Qed.

Lemma generateVideo_disciplined (fuel : nat) (prompt : string) (file : File)
    (ratio : AspectRatio) (s : W) :
  disciplined false (trace (generateVideo H fuel prompt file ratio s)) = true.
Proof.
  rewrite generateVideo_run. cbv zeta.
  destruct (settle_reader _) as [b64|e|]; try reflexivity.
  destruct (generateVideos H apiKey _ _) as [[e|op0] s2]; [reflexivity|].
  pose proof (pollLoop_Polled H fuel 1 op0 s2) as Hp.
  pose proof (Polled_disciplined Hp) as Hd.
  destruct (outcome (pollLoop H fuel 1 op0 s2)) as [op|e|] eqn:Ho;
    cbn [trace app disciplined observesDone observed orb andb].
  - rewrite disciplined_app, Hd.
    destruct (Polled_resolved Hp eq_refl) as (_ & _ & ->).
    apply download_disciplined.
  - exact Hd.
  - exact Hd.
Qed.

(** C1.  In every run of [generateVideo], however far it is followed: a
    status check is only ever made on a handle whose [done] flag is false;
    once an event has handed the program a handle with [done = true], no
    status check is made any more; and a download is only made after such
    an event. *)
Theorem polls_until_done_then_downloads (fuel : nat) (prompt : string)
    (file : File) (ratio : AspectRatio) (s : W) :
  let tr := trace (generateVideo H fuel prompt file ratio s) in
  (forall k op r, In (EvGetVideosOperation k op r) tr -> done op = false)
  /\ (forall pre ev post,
        tr = pre ++ ev :: post ->
        observesDone ev = true ->
        forall k op r, ~ In (EvGetVideosOperation k op r) post)
  /\ (forall pre url r post,
        tr = pre ++ EvFetch url r :: post ->
        exists ev, In ev pre /\ observesDone ev = true).
Proof.
  intros tr.
  pose proof (generateVideo_disciplined fuel prompt file ratio s) as Hd.
  fold tr in Hd. repeat split.
  - intros k op r Hin. eapply disciplined_poll; eassumption.
  - intros pre ev post Heq Hev k op r Hin. rewrite Heq in Hd.
    pose proof (@disciplined_after_done _ _ _ _ Hd Hev) as Hpost.
    destruct (@disciplined_poll _ _ _ _ _ Hpost Hin) as [Hs _].
    discriminate Hs.
  - intros pre url r post Heq. rewrite Heq in Hd.
    exact (@disciplined_fetch _ _ _ _ Hd).
Qed.

Lemma ok_spec (resp : HttpResponse) :
  ok resp = true <-> 200 <= status resp <= 299.
Proof. unfold ok. now rewrite andb_true_iff, !Nat.leb_le. Qed.

(** C2.  The message list has ten entries.  In every run of
    [generateVideo], for every [n] from 1 to the number of waits made, the
    message showing when the [n]-th wait starts is the entry of index
    [n mod 10]; and the first message emitted before any status check is the
    entry of index 0. *)
Theorem progress_rotation (fuel : nat) (prompt : string) (file : File)
    (ratio : AspectRatio) (s : W) :
  let tr := trace (generateVideo H fuel prompt file ratio s) in
  length LOADING_MESSAGES = 10
  /\ (forall n,
        1 <= n <= waits tr ->
        messageBeforeWait None n tr = nth_error LOADING_MESSAGES (n mod 10))
  /\ (forall pre k op r post,
        tr = pre ++ EvGetVideosOperation k op r :: post ->
        hd_error (progressMessages pre) = nth_error LOADING_MESSAGES 0).
Proof.
  intros tr. split; [reflexivity|]. subst tr.
  rewrite generateVideo_run. cbv zeta.
  destruct (settle_reader _) as [b64|e|].
  - destruct (generateVideos H apiKey _ _) as [[e|op0] s2].
    + cbn [trace]. split.
      * intros n Hn. cbn in Hn. lia.
      * intros [|e1 [|e2 [|e3 pre]]] k op r post Heq; try discriminate Heq.
        injection Heq as _ _ _ Heq. now destruct pre.
    + pose proof (pollLoop_Polled H fuel 1 op0 s2) as Hp.
      pose proof (Polled_messageBeforeWait Hp) as Hm.
      set (l := pollLoop H fuel 1 op0 s2) in *.
      assert (forall rest, waits rest = 0 ->
              forall n, 1 <= n <= waits (trace l ++ rest) ->
              messageBeforeWait (Some (message_at 0)) n (trace l ++ rest)
              = nth_error LOADING_MESSAGES (n mod 10)) as Hrot.
      { intros rest Hr n Hn. rewrite waits_app, Hr, Nat.add_0_r in Hn.
        rewrite Hm by exact Hn. replace (1 + n - 1) with n by lia.
        symmetry. apply message_at_nth_error. }
      assert (forall rest pre k op r post,
              [EvReadAsDataURL file (fst (readAsDataURL H file s));
               EvProgress (message_at 0);
               EvGenerateVideos apiKey
                 (request prompt b64 file ratio) (inr op0)] ++ rest
              = pre ++ EvGetVideosOperation k op r :: post ->
              hd_error (progressMessages pre)
              = nth_error LOADING_MESSAGES 0) as Hfirst.
      { intros rest [|e1 [|e2 [|e3 pre]]] k op r post Heq;
          try discriminate Heq.
        injection Heq as <- <- <- _. reflexivity. }
      destruct (outcome l) as [op|e|]; cbn [trace]; split;
        try (intros pre k op' r post Heq; exact (Hfirst _ _ _ _ _ _ Heq)).
      * intros n Hn. cbn [app messageBeforeWait]. apply Hrot; [|exact Hn].
        apply download_waits.
      * intros n Hn. cbn [app messageBeforeWait].
        rewrite <- (app_nil_r (trace l)). apply Hrot; [reflexivity|].
        now rewrite app_nil_r.
      * intros n Hn. cbn [app messageBeforeWait].
        rewrite <- (app_nil_r (trace l)). apply Hrot; [reflexivity|].
        now rewrite app_nil_r.
  - cbn [trace]. split.
    + intros n Hn. cbn in Hn. lia.
    + intros [|e1 pre] k op r post Heq; try discriminate Heq.
      injection Heq as _ Heq. now destruct pre.
  - cbn [trace]. split.
    + intros n Hn. cbn in Hn. lia.
    + intros [|e1 pre] k op r post Heq; try discriminate Heq.
      injection Heq as _ Heq. now destruct pre.
Qed.





(** C6, as the code has it.  Whenever the encoder resolves, the run of
    [generateVideo] opens with the read of the file, then the message of
    index 0, then the submission: the message is emitted before the submit
    call, and both come before every status check.  When the encoder does
    not resolve, nothing is emitted and nothing submitted. *)
Theorem first_message_precedes_submission (fuel : nat) (prompt : string)
    (file : File) (ratio : AspectRatio) (s : W) :
  let g := generateVideo H fuel prompt file ratio s in
  let rd := fst (readAsDataURL H file s) in
  (forall imageBase64,
      settle_reader rd = Resolved imageBase64 ->
      exists r rest,
        trace g
        = EvReadAsDataURL file rd
            :: EvProgress "Warming up the video engine..."
            :: EvGenerateVideos (API_KEY H)
                 (request prompt imageBase64 file ratio) r
            :: rest
        /\ forallb (fun ev => match ev with
                              | EvGenerateVideos _ _ _ => false
                              | _ => true
                              end) rest = true)
  /\ (forall e,
        settle_reader rd = Rejected e ->
        trace g = [EvReadAsDataURL file rd] /\ outcome g = Rejected e).
Proof.
  intros g rd. subst g rd. rewrite generateVideo_run. cbv zeta. split.
  - intros b64 ->.
    destruct (generateVideos H apiKey _ _) as [[e|op0] s2].
    + now eexists _, [].
    + pose proof (pollLoop_Polled H fuel 1 op0 s2) as Hp.
      assert (forallb (fun ev => match ev with
                                 | EvGenerateVideos _ _ _ => false
                                 | _ => true
                                 end) (trace (pollLoop H fuel 1 op0 s2))
              = true) as Hl.
      { induction Hp as [| | |c op op1 tr out Hd _ IH]; try reflexivity.
        unfold turn. cbn [app forallb andb]. exact IH. }
      destruct (outcome (pollLoop H fuel 1 op0 s2)) as [op|e|];
        cbn [trace app]; eexists _, _; (split; [reflexivity|]);
        try exact Hl.
      rewrite forallb_app, Hl. cbn [andb]. clear Hl Hp.
      rewrite download_run.
      destruct (negb (Js.truthy (downloadLink op))); [reflexivity|].
      cbv zeta. destruct (fetch H _ _) as [[e|resp] s1]; [reflexivity|].
      destruct (negb (ok resp)); [reflexivity|].
      destruct (blob H resp s1) as [[e|b] s3]; reflexivity.
  - intros e ->. now split.
Qed.

(** What a download event of [download] tells. *)
Lemma download_fetch (operation : Operation) (s : W) url r :
  let d := download H operation s in
  In (EvFetch url r) (trace d) ->
  (exists link,
      downloadLink operation = Some link
      /\ url = (link ++ "&key=" ++ Js.interpolate (API_KEY H))%string)
  /\ match r with
     | inl e => outcome d = Rejected e
     | inr resp =>
         (ok resp = false ->
          outcome d
          = Rejected (JsError ("Failed to download video: " ++ statusText resp)))
         /\ (ok resp = true ->
             exists rb,
               In (EvBlob resp rb) (trace d)
               /\ match rb with
                  | inl e => outcome d = Rejected e
                  | inr b =>
                      exists objectUrl,
                        In (EvCreateObjectURL b objectUrl) (trace d)
                        /\ outcome d = Resolved objectUrl
                  end)
     end.
Proof.
  intros d. subst d. rewrite download_run. unfold target, apiKey.
  destruct (downloadLink operation) as [link|]; [|intros []].
  destruct (Js.truthy (Some link)); cbn [negb]; [|intros []].
  cbv zeta. cbn [Js.interpolate].
  destruct (fetch H _ s) as [[e|resp] s1].
  - cbn [trace outcome]. intros [Hin|[Hin|[]]]; [discriminate Hin|].
    injection Hin as <- <-. split; [now exists link | reflexivity].
  - destruct (ok resp) eqn:Hok; cbn [negb].
    + destruct (blob H resp s1) as [[e|b] s2]; cbn [trace outcome].
      * intros [Hin|[Hin|[Hin|[]]]]; try discriminate Hin.
        injection Hin as <- <-. split; [now exists link|].
        split; [congruence|]. intros _. exists (inl e).
        split; [cbn; tauto | reflexivity].
      * intros [Hin|[Hin|[Hin|[Hin|[]]]]]; try discriminate Hin.
        injection Hin as <- <-. split; [now exists link|].
        split; [congruence|]. intros _. exists (inr b).
        split; [cbn; tauto|]. eexists. split; [cbn; tauto | reflexivity].
    + cbn [trace outcome]. intros [Hin|[Hin|[]]]; [discriminate Hin|].
      injection Hin as <- <-. split; [now exists link|].
      split; [reflexivity | congruence].
Qed.

(** C9.  Every download a run of [generateVideo] makes is made at the
    location of the finished handle with ["&key="] and the credential
    appended.  When the response's status is outside 200 to 299 the run is
    rejected with the error "Failed to download video: " followed by the
    status text.  When it is inside, the body is read as a blob and the run
    resolves with the object URL made for that blob (a failure of the fetch
    or of the body read is rethrown as it is). *)
Theorem download_contract (fuel : nat) (prompt : string) (file : File)
    (ratio : AspectRatio) (s : W) url r :
  let g := generateVideo H fuel prompt file ratio s in
  In (EvFetch url r) (trace g) ->
  (exists op link,
      lastObserved None (trace g) = Some op
      /\ done op = true
      /\ downloadLink op = Some link
      /\ url = (link ++ "&key=" ++ Js.interpolate (API_KEY H))%string)
  /\ match r with
     | inl e => outcome g = Rejected e
     | inr resp =>
         (status resp < 200 \/ 299 < status resp ->
          outcome g
          = Rejected (JsError ("Failed to download video: " ++ statusText resp)))
         /\ (200 <= status resp <= 299 ->
             exists rb,
               In (EvBlob resp rb) (trace g)
               /\ match rb with
                  | inl e => outcome g = Rejected e
                  | inr b =>
                      exists objectUrl,
                        In (EvCreateObjectURL b objectUrl) (trace g)
                        /\ outcome g = Resolved objectUrl
                  end)
     end.
Proof.
  intros g. subst g. rewrite generateVideo_run. cbv zeta.
  destruct (settle_reader _) as [b64|e|];
    try (cbn [trace]; intros [Hin|[]]; discriminate Hin).
  destruct (generateVideos H apiKey _ _) as [[e|op0] s2];
    [cbn [trace]; intros [Hin|[Hin|[Hin|[]]]]; discriminate Hin|].
  pose proof (pollLoop_Polled H fuel 1 op0 s2) as Hp.
  pose proof (filter_nil_not_In isFetch _ (EvFetch url r)
                (Polled_no_fetch Hp) eq_refl) as Hnf.
  set (l := pollLoop H fuel 1 op0 s2) in *.
  destruct (outcome l) as [op|e|] eqn:Ho; cbn [trace outcome app];
    try (intros [Hin|[Hin|[Hin|Hin]]]; try discriminate Hin; contradiction).
  intros [Hin|[Hin|[Hin|Hin]]]; try discriminate Hin.
  apply in_app_or in Hin. destruct Hin as [Hin|Hin]; [contradiction|].
  destruct (Polled_resolved Hp eq_refl) as (Hd & Hl & _).
  destruct (download_fetch _ _ _ _ Hin) as ((link & Hlink & Hurl) & Hr).
  split.
  - exists op, link. cbn [lastObserved observed].
    now rewrite lastObserved_app, Hl, download_lastObserved.
  - destruct r as [e|resp]; [exact Hr|]. destruct Hr as [Hbad Hgood]. split.
    + intros Hs. apply Hbad. apply not_true_is_false. rewrite ok_spec. lia.
    + intros Hs. destruct (Hgood (proj2 (ok_spec resp) Hs)) as (rb & Hb & Hrb).
      exists rb. split.
      * right. right. right. apply in_or_app. now right.
      * destruct rb as [e|b]; [exact Hrb|].
        destruct Hrb as (u & Hu & Hou). exists u. split; [|exact Hou].
        right. right. right. apply in_or_app. now right.
Qed.


(** A run that has settled is the same run with any more fuel. *)
Lemma generateVideo_more_fuel (fuel extra : nat) (prompt : string)
    (file : File) (ratio : AspectRatio) (s : W) :
  settled (outcome (generateVideo H fuel prompt file ratio s)) = true ->
  generateVideo H (fuel + extra) prompt file ratio s
  = generateVideo H fuel prompt file ratio s.
Proof.
  rewrite !generateVideo_run. cbv zeta.
  destruct (settle_reader _) as [b64|e|]; try reflexivity.
  destruct (generateVideos H apiKey _ _) as [[e|op0] s2]; [reflexivity|].
  pose proof (pollLoop_more_fuel H fuel extra 1 op0 s2) as Hm.
  destruct (outcome (pollLoop H fuel 1 op0 s2)) as [op|e|] eqn:Ho.
  - rewrite (Hm eq_refl), Ho. reflexivity.
  - rewrite (Hm eq_refl), Ho. reflexivity.
  - discriminate.
Qed.

End ServiceFacts.

(** ** The session *)

Lemma commit_app (st : AppState) (a b : list SetState) :
  commit st (a ++ b) = commit (commit st a) b.
Proof. apply fold_left_app. Qed.

(** The progress callbacks touch the loading message and nothing else. *)
Lemma commit_progress (tr : list Event) (st : AppState) :
  exists m, commit st (progressUpdates tr) = update st (SetLoadingMessage m).
Proof.
  revert st. induction tr as [|ev tr IH]; intros st.
  - exists (loadingMessage st). now destruct st.
  - destruct ev; try exact (IH st).
    cbn [progressUpdates flat_map app commit fold_left].
    destruct (IH (update st (SetLoadingMessage message))) as [m Hm].
    exists m. exact Hm.
Qed.

Lemma catch_matches (e : Thrown) :
  Js.includes (Js.or_else (message_of e) "An unknown error occurred.")
    "Requested entity was not found"
  = credentialSignature e.
Proof.
  destruct e as [m|]; [|reflexivity]. unfold credentialSignature.
  cbn [message_of Js.or_else]. destruct (String.eqb_spec m "") as [->|];
    reflexivity.
Qed.

Section AppFacts.

Variable W : Type.
Variable H : Host W.

(** The state a settled attempt leaves, whatever progress it reported. *)
Lemma attempt_commit (st : AppState) (tr : list Event) (tail : list SetState) :
  exists m,
    commit st ([SetIsLoading true; SetError None; SetGeneratedVideoUrl None]
                 ++ progressUpdates tr ++ tail)
    = commit
        (mkApp (apiKeySelected st) (prompt st) (imageFile st) (previewUrl st)
           (aspectRatio st) true m None None)
        tail.
Proof.
  rewrite commit_app, commit_app.
  destruct (commit_progress tr
              (commit st [SetIsLoading true; SetError None;
                          SetGeneratedVideoUrl None])) as [m Hm].
  exists m. rewrite Hm. reflexivity.
Qed.

(** C5.  Invoked with no image selected, or with the credential gate
    inactive, the submit handler makes exactly one setter call, setting the
    validation message; [generateVideo] is not called (so nothing is
    encoded and no request is made), and the state is the state before with
    the error set: in particular the loading flag is not touched. *)
Theorem submit_rejected_without_preconditions (fuel : nat) (st : AppState)
    (s : W) :
  imageFile st = None \/ apiKeySelected st = false ->
  let h := handleGenerateVideo H fuel st s in
  let msg := match imageFile st with
             | None => "Please upload an image first."
             | Some _ => "Please select an API key before generating a video."
             end in
  attempt h = None
  /\ updates h = [SetError (Some msg)]
  /\ commit st (updates h)
     = mkApp (apiKeySelected st) (prompt st) (imageFile st) (previewUrl st)
         (aspectRatio st) (isLoading st) (loadingMessage st)
         (generatedVideoUrl st) (Some msg).
Proof.
  intros Hpre h msg. subst h msg. unfold handleGenerateVideo.
  destruct (imageFile st) as [file|] eqn:Hi.
  - destruct Hpre as [Hpre|Hpre]; [discriminate Hpre|].
    rewrite Hpre. repeat split. cbn. now rewrite Hi, Hpre.
  - repeat split. cbn. now rewrite Hi.
Qed.

(** C4.  Let an attempt that passed the preconditions be rejected with [e].
    If the message of [e] contains "Requested entity was not found", the
    handler leaves the gate inactive, so that the key selector is shown, and
    the error shown is the message asking for a new key.  In every other
    case the gate is as it was and an error is shown: the message of [e]
    when it has one that is not empty, and "An unknown error occurred."
    when [e] has no message or an empty one. *)
Theorem credential_invalidation (fuel : nat) (st : AppState) (s : W)
    (file : File) (e : Thrown) :
  imageFile st = Some file ->
  apiKeySelected st = true ->
  outcome (generateVideo H fuel (prompt st) file (aspectRatio st) s)
  = Rejected e ->
  let st' := commit st (updates (handleGenerateVideo H fuel st s)) in
  (forall m,
      message_of e = Some m ->
      Js.includes m "Requested entity was not found" = true ->
      apiKeySelected st' = false
      /\ keySelectorShown st' = true
      /\ error st'
         = Some "Your API key is invalid or has been revoked. Please select a new key."
      /\ errorBanner st' = error st')
  /\ (forall m,
        message_of e = Some m ->
        Js.includes m "Requested entity was not found" = false ->
        m <> "" ->
        apiKeySelected st' = apiKeySelected st
        /\ error st' = Some m
        /\ errorBanner st' = Some m)
  /\ (message_of e = None \/ message_of e = Some "" ->
      apiKeySelected st' = apiKeySelected st
      /\ error st' = Some "An unknown error occurred."
      /\ errorBanner st' = Some "An unknown error occurred.").
Proof.
  intros Hf Hk Ho st'. subst st'. unfold handleGenerateVideo.
  rewrite Hf, Hk. cbn [negb updates]. rewrite Ho.
  destruct (attempt_commit st
              (trace (generateVideo H fuel (prompt st) file (aspectRatio st) s))
              (catchUpdates e ++ finallyUpdates)) as [m0 ->].
  unfold catchUpdates, errorBanner, keySelectorShown.
  split; [|split].
  - intros m Hm Hi. rewrite Hm. cbn [Js.or_else].
    assert (m <> "") as Hne by (intros ->; discriminate Hi).
    apply String.eqb_neq in Hne. rewrite Hne, Hi. now repeat split.
  - intros m Hm Hi Hne. rewrite Hm. cbn [Js.or_else].
    pose proof Hne as Hne'. apply String.eqb_neq in Hne'. rewrite Hne', Hi.
    cbn. rewrite Hne', Hk. now repeat split.
  - intros [Hm|Hm]; rewrite Hm; cbn; rewrite Hk; now repeat split.
Qed.

(** C10.  An attempt that passed the preconditions and has settled, resolved
    or rejected, leaves the loading flag false and the loading message
    empty. *)
Theorem loading_cleared_when_settled (fuel : nat) (st : AppState) (s : W)
    (file : File) :
  imageFile st = Some file ->
  apiKeySelected st = true ->
  settled (outcome (generateVideo H fuel (prompt st) file (aspectRatio st) s))
  = true ->
  let st' := commit st (updates (handleGenerateVideo H fuel st s)) in
  isLoading st' = false /\ loadingMessage st' = "".
Proof.
  intros Hf Hk Hs st'. subst st'. unfold handleGenerateVideo.
  rewrite Hf, Hk. cbn [negb updates].
  destruct (outcome (generateVideo H fuel (prompt st) file (aspectRatio st) s))
    as [url|e|]; [| |discriminate Hs].
  - destruct (attempt_commit st
                (trace (generateVideo H fuel (prompt st) file (aspectRatio st) s))
                (SetGeneratedVideoUrl (Some url) :: finallyUpdates)) as [m ->].
    now split.
  - destruct (attempt_commit st
                (trace (generateVideo H fuel (prompt st) file (aspectRatio st) s))
                (catchUpdates e ++ finallyUpdates)) as [m ->].
    unfold catchUpdates.
    destruct (Js.includes _ _); now split.
Qed.

End AppFacts.

(** ** The scenarios *)

Module ScenarioFacts.
Import Scenario.

(** The happy path: three turns, then the download; the messages seen are
    those of index 0, 1, 2 and 3, then the download notice. *)
Example happy_run :
  outcome (run happy) = Resolved "blob:https://app.example/0001"
  /\ progressMessages (trace (run happy))
     = [ message_at 0; message_at 1; message_at 2; message_at 3;
         "Downloading your generated video..." ]
  /\ waits (trace (run happy)) = 3.
Proof. repeat split. Qed.

(** A job that never finishes: the run is unfinished however long it is
    followed. *)
Lemma stuck_loop (fuel c n : nat) :
  outcome (pollLoop (host stuck) fuel c running n) = Pending.
Proof.
  revert c n. induction fuel as [|fuel IH]; intros c n.
  - reflexivity.
  - rewrite pollLoop_S by reflexivity. cbn [host getVideosOperation polls stuck].
    replace (nth n [] (inr running)) with (@inr Thrown _ running)
      by (now destruct n).
    cbn [outcome]. apply IH.
Qed.

Lemma polls_until_done_then_downloads_witness :
  In (EvGetVideosOperation (Some "KEY") running (inr (finished (Some catLink))))
    (trace (run happy))
  /\ done running = false
  /\ exists ev,
       In ev (firstn 13 (trace (run happy))) /\ observesDone ev = true.
Proof.
  destruct (polls_until_done_then_downloads (host happy) 5 "a cat running"
              photo Ratio16x9 0) as (Hpoll & _ & Hfetch).
  assert (In (EvGetVideosOperation (Some "KEY") running
                (inr (finished (Some catLink)))) (trace (run happy))) as Hin
    by (cbn; tauto).
  split; [exact Hin|]. split; [exact (Hpoll _ _ _ Hin)|].
  apply (Hfetch (firstn 13 (trace (run happy)))
           "https://videos.example/v1/cat.mp4?alt=media&key=KEY"
           (inr http200) (skipn 14 (trace (run happy)))).
  reflexivity.
Defined.

Lemma progress_rotation_witness :
  messageBeforeWait None 3 (trace (run happy))
  = Some "Setting up the virtual cameras..."
  /\ hd_error (progressMessages (firstn 5 (trace (run happy))))
     = Some "Warming up the video engine...".
Proof.
  destruct (progress_rotation (host happy) 5 "a cat running" photo Ratio16x9 0)
    as (_ & Hwait & Hfirst).
  split.
  - change (messageBeforeWait None 3 (trace (run happy))
            = nth_error LOADING_MESSAGES (3 mod 10)).
    apply Hwait. cbn. lia.
  - change (hd_error (progressMessages (firstn 5 (trace (run happy))))
            = nth_error LOADING_MESSAGES 0).
    apply (Hfirst (firstn 5 (trace (run happy))) (Some "KEY") running
             (inr running) (skipn 6 (trace (run happy)))).
    reflexivity.
Defined.


Lemma download_contract_witness :
  outcome (run forbidden)
  = Rejected (JsError "Failed to download video: Forbidden")
  /\ exists rb,
       In (EvBlob http200 rb) (trace (run happy))
       /\ match rb with
          | inl e => outcome (run happy) = Rejected e
          | inr b =>
              exists objectUrl,
                In (EvCreateObjectURL b objectUrl) (trace (run happy))
                /\ outcome (run happy) = Resolved objectUrl
          end.
Proof.
  split.
  - assert (In (EvFetch "https://videos.example/v1/cat.mp4?alt=media&key=KEY"
                  (inr http403)) (trace (run forbidden))) as Hin
      by (cbn; tauto).
    destruct (download_contract (host forbidden) 5 "a cat running" photo
                Ratio16x9 0 _ _ Hin) as (_ & Hbad & _).
    apply Hbad. cbn. lia.
  - assert (In (EvFetch "https://videos.example/v1/cat.mp4?alt=media&key=KEY"
                  (inr http200)) (trace (run happy))) as Hin
      by (cbn; tauto).
    destruct (download_contract (host happy) 5 "a cat running" photo
                Ratio16x9 0 _ _ Hin) as (_ & _ & Hgood).
    apply Hgood. cbn. lia.
Defined.



(** C6, the claim as stated fails.  In the happy run the message of index 0
    is emitted when no submission has been made yet: the submit call comes
    after it. *)
Lemma first_message_emitted_before_submit :
  exists pre post,
    trace (run happy) = pre ++ EvProgress (message_at 0) :: post
    /\ (forall k p r, ~ In (EvGenerateVideos k p r) pre)
    /\ (exists k p r, In (EvGenerateVideos k p r) post).
Proof.
  exists (firstn 1 (trace (run happy))), (skipn 2 (trace (run happy))).
  split; [reflexivity|]. split.
  - intros k p r [Hin|[]]. discriminate Hin.
  - do 3 eexists. left. reflexivity.
Qed.

Lemma first_message_precedes_submission_witness :
  exists r rest,
    trace (run happy)
    = EvReadAsDataURL photo (LoadedString photoDataURL)
        :: EvProgress "Warming up the video engine..."
        :: EvGenerateVideos (Some "KEY")
             (request "a cat running" (Some "/9j/4AAQSkZJRg==") photo Ratio16x9)
             r
        :: rest
    /\ forallb (fun ev => match ev with
                          | EvGenerateVideos _ _ _ => false
                          | _ => true
                          end) rest = true.
Proof.
  destruct (first_message_precedes_submission (host happy) 5 "a cat running"
              photo Ratio16x9 0) as (Hres & _).
  apply (Hres (Some "/9j/4AAQSkZJRg==")). reflexivity.
Defined.

Lemma credential_invalidation_witness :
  (apiKeySelected (after revoked armed) = false
   /\ keySelectorShown (after revoked armed) = true
   /\ error (after revoked armed)
      = Some "Your API key is invalid or has been revoked. Please select a new key."
   /\ errorBanner (after revoked armed) = error (after revoked armed))
  /\ (apiKeySelected (after quota armed) = true
      /\ error (after quota armed) = Some "429: Resource has been exhausted."
      /\ errorBanner (after quota armed)
         = Some "429: Resource has been exhausted.")
  /\ (apiKeySelected (after PageScenario.unreadable armed) = true
      /\ error (after PageScenario.unreadable armed)
         = Some "An unknown error occurred."
      /\ errorBanner (after PageScenario.unreadable armed)
         = Some "An unknown error occurred.").
Proof.
  split; [|split].
  - apply (proj1 (credential_invalidation (host revoked) 5 armed 0
                    (file := photo)
                    (e := JsError "404: Requested entity was not found.")
                    eq_refl eq_refl eq_refl)
             "404: Requested entity was not found."); reflexivity.
  - apply (proj1 (proj2 (credential_invalidation (host quota) 5 armed 0
                           (file := photo)
                           (e := JsError "429: Resource has been exhausted.")
                           eq_refl eq_refl eq_refl))
             "429: Resource has been exhausted.");
      [reflexivity | reflexivity | discriminate].
  - apply (proj2 (proj2 (credential_invalidation
                           (host PageScenario.unreadable) 5 armed 0
                           (file := photo) (e := ReaderErrorEvent)
                           eq_refl eq_refl eq_refl))).
    left. reflexivity.
Defined.

Lemma submit_rejected_without_preconditions_witness :
  attempt (submit happy initialState) = None
  /\ updates (submit happy initialState)
     = [SetError (Some "Please upload an image first.")]
  /\ after happy initialState
     = mkApp false "" None None Ratio16x9 false "" None
         (Some "Please upload an image first.").
Proof.
  apply (submit_rejected_without_preconditions (host happy) 5 initialState 0).
  left. reflexivity.
Defined.

Lemma loading_cleared_when_settled_witness :
  isLoading (after happy armed) = false
  /\ loadingMessage (after happy armed) = "".
Proof.
  apply (loading_cleared_when_settled (host happy) 5 armed 0 (file := photo));
    reflexivity.
Defined.

(** C7, the claim as stated fails.  After an attempt that failed for want of
    quota the session shows the error, with the photo and the prompt still
    in place, and offers no reset: the button rendered is the submit
    button, so no click lands the session in the idle state. *)
Lemma no_reset_after_failure :
  error (after quota armed) = Some "429: Resource has been exhausted."
  /\ isLoading (after quota armed) = false
  /\ actionButton (after quota armed) = GenerateVideo false
  /\ (forall st', clickReset (after quota armed) <> Some st')
  /\ imageFile (after quota armed) = Some photo
  /\ prompt (after quota armed) = "a cat running".
Proof. repeat split. intros st' Hc. discriminate Hc. Qed.

End ScenarioFacts.

(** * Further properties *)

(** ** The encoder on other strings *)

Lemma append_empty (s : string) : (s ++ "")%string = s.
Proof. induction s as [|c s IH]; cbn [append]; [|rewrite IH]; reflexivity. Qed.

Section EncoderEdges.

Variable W : Type.
Variable H : Host W.

(** X1.  When the string the reader loads has no comma, [fileToBase64] does
    not reject: it resolves with [undefined], and [generateVideo] goes on to
    submit the request with [imageBytes] undefined. *)
Theorem encoder_without_comma (fuel : nat) (prompt : string) (file : File)
    (ratio : AspectRatio) (s : W) (result : string) :
  fst (readAsDataURL H file s) = LoadedString result ->
  Js.lacks "," result = true ->
  outcome (fileToBase64 H file s) = Resolved None
  /\ exists r rest,
       trace (generateVideo H fuel prompt file ratio s)
       = EvReadAsDataURL file (LoadedString result)
           :: EvProgress (message_at 0)
           :: EvGenerateVideos (API_KEY H) (request prompt None file ratio) r
           :: rest
       /\ imageBytes (image (request prompt None file ratio)) = None.
Proof.
  intros Hr Hl. split.
  - unfold fileToBase64. destruct (readAsDataURL H file s) as [rd s1].
    cbn [fst] in Hr. subst rd. cbn [outcome settle_reader].
    now rewrite JsFacts.split_lacks by exact Hl.
  - rewrite generateVideo_run. cbv zeta. rewrite Hr. cbn [settle_reader].
    rewrite JsFacts.split_lacks by exact Hl. cbn [nth_error].
    destruct (generateVideos H (API_KEY H) _ _) as [[e|op0] s2].
    + now eexists _, [].
    + destruct (outcome (pollLoop H fuel 1 op0 s2)); cbn [trace app];
        now eexists _, _.
Qed.

(** X2.  Of a loaded string with two commas or more, [fileToBase64] resolves
    with the part between the first and the second: what follows the second
    comma is dropped. *)
Theorem encoder_takes_second_segment (file : File) (s : W)
    (head middle rest : string) :
  fst (readAsDataURL H file s)
  = LoadedString (head ++ "," ++ middle ++ "," ++ rest) ->
  Js.lacks "," head = true ->
  Js.lacks "," middle = true ->
  outcome (fileToBase64 H file s) = Resolved (Some middle).
Proof.
  intros Hr Hh Hm. unfold fileToBase64.
  destruct (readAsDataURL H file s) as [rd s1]. cbn [fst] in Hr. subst rd.
  cbn [outcome settle_reader]. rewrite JsFacts.split_app_lacks by exact Hh.
  cbn [append Js.split Ascii.eqb Bool.eqb hd tl nth_error].
  rewrite JsFacts.split_app_lacks by exact Hm.
  cbn [append Js.split Ascii.eqb Bool.eqb hd tl nth_error].
  now rewrite append_empty.
Qed.

End EncoderEdges.

(** ** More on the runs of [generateVideo] *)

Lemma failFast_split {B : Type} (out : Completion B) (pre post : list Event)
    ev e :
  failFast out (pre ++ ev :: post) ->
  failed ev = Some e ->
  post = [] /\ out = Rejected e.
Proof.
  induction pre as [|x pre IH]; cbn [app failFast]; intros Hf He.
  - now rewrite He in Hf.
  - destruct (failed x); [|exact (IH Hf He)].
    destruct Hf as [Hnil _]. now destruct pre.
Qed.

Lemma failFast_app_free {B : Type} (out : Completion B) (a b : list Event) :
  failureFree a = true -> failFast out b -> failFast out (a ++ b).
Proof.
  induction a as [|x a IH]; cbn [app failFast failureFree forallb];
    intros Ha Hb; [exact Hb|].
  apply andb_prop in Ha. destruct Ha as [Hx Ha].
  destruct (failed x); [discriminate Hx | exact (IH Ha Hb)].
Qed.

Lemma failureFree_failFast {B : Type} (out : Completion B) (a : list Event) :
  failureFree a = true -> failFast out a.
Proof.
  intros Ha. rewrite <- (app_nil_r a). now apply failFast_app_free.
Qed.

Section PolledMore.

Variable apiKey : option string.

Lemma Polled_failFast (B : Type) c op tr out :
  Polled apiKey c op tr out ->
  match out with
  | Rejected e => failFast (@Rejected B e) tr
  | _ => failureFree tr = true
  end.
Proof.
  induction 1 as [c op Hd|c op Hd|c op e Hd|c op op1 tr out Hd _ IH].
  - reflexivity.
  - reflexivity.
  - cbn. now split.
  - destruct out as [op'|e|]; unfold turn; cbn [app failFast failed failureFree
      forallb andb]; exact IH.
Qed.

Lemma Polled_pacing c op tr out :
  Polled apiKey c op tr out ->
  pacing tr = flat_map (fun p => [EvSleep 10000%N; p]) (statusChecks tr).
Proof.
  induction 1 as [c op Hd|c op Hd|c op e Hd|c op op1 tr out Hd _ IH];
    try reflexivity.
  unfold turn, pacing, statusChecks in *. cbn [app filter flat_map].
  now rewrite IH.
Qed.

Lemma Polled_echo c op tr out :
  Polled apiKey c op tr out ->
  polledHandles tr
  = firstn (length (polledHandles tr)) (op :: observedHandles tr).
Proof.
  induction 1 as [c op Hd|c op Hd|c op e Hd|c op op1 tr out Hd _ IH];
    try reflexivity.
  unfold turn, polledHandles, observedHandles in *.
  cbn [app flat_map observed length firstn]. now rewrite <- IH.
Qed.

Lemma Polled_progress c op tr out :
  Polled apiKey c op tr out ->
  progressMessages tr
  = map (fun n => message_at (n mod 10)) (seq c (waits tr)).
Proof.
  induction 1 as [c op Hd|c op Hd|c op e Hd|c op op1 tr out Hd _ IH];
    try reflexivity.
  rewrite waits_app. unfold turn at 2. unfold waits at 1.
  cbn [filter isSleep length Nat.add seq map].
  unfold turn, progressMessages in *. cbn [app flat_map]. now rewrite IH.
Qed.

End PolledMore.

Section RunFacts.

Variable W : Type.
Variable H : Host W.

Ltac by_download_cases operation s :=
  rewrite download_run;
  destruct (negb (Js.truthy (downloadLink operation))); [cbn; auto|];
  cbv zeta;
  let e := fresh "e" in let resp := fresh "resp" in let s1 := fresh "s" in
  destruct (fetch H _ s) as [[e|resp] s1]; [cbn; auto|];
  destruct (negb (ok resp)); [cbn; auto|];
  let b := fresh "b" in let s2 := fresh "s" in
  destruct (blob H resp s1) as [[e|b] s2]; cbn; auto.

Lemma download_failFast (operation : Operation) (s : W) :
  failFast (outcome (download H operation s)) (trace (download H operation s)).
Proof. by_download_cases operation s. Qed.

Lemma download_pacing (operation : Operation) (s : W) :
  pacing (trace (download H operation s)) = []
  /\ statusChecks (trace (download H operation s)) = [].
Proof. by_download_cases operation s. Qed.

Lemma download_handles (operation : Operation) (s : W) :
  polledHandles (trace (download H operation s)) = []
  /\ observedHandles (trace (download H operation s)) = [].
Proof. by_download_cases operation s. Qed.

Lemma download_progress (operation : Operation) (s : W) :
  progressMessages (trace (download H operation s))
  = if existsb isFetch (trace (download H operation s))
    then ["Downloading your generated video..."]
    else [].
Proof. by_download_cases operation s. Qed.

(** X3.  No retries: in every run of [generateVideo], a call that fails (the
    read of the file, the submission, a status check, the download, the
    read of the body) is the last thing the run does, and the run is
    rejected with that call's own error. *)
Theorem calls_fail_fast (fuel : nat) (prompt : string) (file : File)
    (ratio : AspectRatio) (s : W) (pre post : list Event) ev e :
  let g := generateVideo H fuel prompt file ratio s in
  trace g = pre ++ ev :: post ->
  failed ev = Some e ->
  post = [] /\ outcome g = Rejected e.
Proof.
  intros g Heq He. apply (@failFast_split _ (outcome g) pre post ev e);
    [|exact He].
  rewrite <- Heq. clear Heq He. subst g. rewrite generateVideo_run.
  cbv beta zeta.
  destruct (settle_reader (fst (readAsDataURL H file s))) as [b64|e'|] eqn:Hr;
    cbn [trace outcome failFast failed]; rewrite ?Hr; auto.
  destruct (generateVideos H (API_KEY H) _ _) as [[e'|op0] s2];
    [cbn [trace outcome failFast failed]; rewrite ?Hr; auto|].
  pose proof (pollLoop_Polled H fuel 1 op0 s2) as Hp.
  pose proof (Polled_failFast string Hp) as Hf.
  destruct (outcome (pollLoop H fuel 1 op0 s2)) as [op|e'|];
    cbn [trace outcome app failFast failed]; rewrite ?Hr.
  - apply failFast_app_free; [exact Hf | apply download_failFast].
  - exact Hf.
  - now apply failureFree_failFast.
Qed.

(** X4.  Pacing: in every run the waits and the status checks alternate,
    each status check coming right after one wait of 10 000 ms and each wait
    being followed by its status check. *)
Theorem polls_are_paced (fuel : nat) (prompt : string) (file : File)
    (ratio : AspectRatio) (s : W) :
  let tr := trace (generateVideo H fuel prompt file ratio s) in
  pacing tr = flat_map (fun p => [EvSleep 10000%N; p]) (statusChecks tr).
Proof.
  intros tr. subst tr. rewrite generateVideo_run. cbv beta zeta.
  destruct (settle_reader _) as [b64|e|]; try reflexivity.
  destruct (generateVideos H (API_KEY H) _ _) as [[e|op0] s2]; [reflexivity|].
  pose proof (Polled_pacing (pollLoop_Polled H fuel 1 op0 s2)) as Hp.
  set (l := pollLoop H fuel 1 op0 s2) in *.
  unfold pacing, statusChecks in *.
  destruct (outcome l) as [op|e|]; cbn [trace app filter]; try exact Hp.
  destruct (download_pacing op (host_after l)) as [Hd1 Hd2].
  unfold pacing, statusChecks in *.
  now rewrite !filter_app, Hd1, Hd2, !app_nil_r.
Qed.

(** X5.  The handle echoed: the handles passed to the status checks of a
    run are, in order, the first handles the run was handed: the handle the
    submission returned for the first check, and for each later check the
    handle the check before it returned. *)
Theorem polls_echo_previous_handle (fuel : nat) (prompt : string)
    (file : File) (ratio : AspectRatio) (s : W) :
  let tr := trace (generateVideo H fuel prompt file ratio s) in
  polledHandles tr = firstn (length (polledHandles tr)) (observedHandles tr).
Proof.
  intros tr. subst tr. rewrite generateVideo_run. cbv beta zeta.
  destruct (settle_reader _) as [b64|e|]; try reflexivity.
  destruct (generateVideos H (API_KEY H) _ _) as [[e|op0] s2]; [reflexivity|].
  pose proof (Polled_echo (pollLoop_Polled H fuel 1 op0 s2)) as Hp.
  set (l := pollLoop H fuel 1 op0 s2) in *.
  unfold polledHandles, observedHandles in *.
  destruct (outcome l) as [op|e|]; cbn [trace app flat_map observed];
    try exact Hp.
  destruct (download_handles op (host_after l)) as [Hd1 Hd2].
  unfold polledHandles, observedHandles in *.
  now rewrite !flat_map_app, Hd1, Hd2, !app_nil_r.
Qed.

Lemma Polled_isFetch (apiKey : option string) c op tr out :
  Polled apiKey c op tr out -> existsb isFetch tr = false.
Proof.
  induction 1 as [c op Hd|c op Hd|c op e Hd|c op op1 tr out Hd _ IH];
    try reflexivity.
  unfold turn. cbn [app existsb isFetch orb]. exact IH.
Qed.

(** X6.  The whole sequence of progress messages.  When the encoder does
    not resolve, nothing is reported.  When it does, the run reports the
    message of index 0, then one message per wait, the [n]-th of them the
    entry of index [n mod 10], and last, exactly when the run makes a
    download, the notice "Downloading your generated video...". *)
Theorem progress_sequence (fuel : nat) (prompt : string) (file : File)
    (ratio : AspectRatio) (s : W) :
  let tr := trace (generateVideo H fuel prompt file ratio s) in
  progressMessages tr
  = match settle_reader (fst (readAsDataURL H file s)) with
    | Resolved _ =>
        message_at 0
          :: map (fun n => message_at (n mod 10)) (seq 1 (waits tr))
          ++ (if existsb isFetch tr
              then ["Downloading your generated video..."]
              else [])
    | _ => []
    end.
Proof.
  intros tr. subst tr. rewrite generateVideo_run. cbv beta zeta.
  destruct (settle_reader _) as [b64|e|]; try reflexivity.
  destruct (generateVideos H (API_KEY H) _ _) as [[e|op0] s2]; [reflexivity|].
  pose proof (pollLoop_Polled H fuel 1 op0 s2) as Hp.
  pose proof (Polled_progress Hp) as Hm.
  pose proof (Polled_isFetch Hp) as Hf.
  set (l := pollLoop H fuel 1 op0 s2) in *.
  assert (forall rest,
           progressMessages
             ([EvReadAsDataURL file (fst (readAsDataURL H file s));
               EvProgress (message_at 0);
               EvGenerateVideos (API_KEY H) (request prompt b64 file ratio)
                 (inr op0)] ++ trace l ++ rest)
           = message_at 0 :: progressMessages (trace l)
               ++ progressMessages rest) as Hpm.
  { intros rest. unfold progressMessages. cbn [app flat_map].
    now rewrite flat_map_app. }
  assert (forall rest,
           waits
             ([EvReadAsDataURL file (fst (readAsDataURL H file s));
               EvProgress (message_at 0);
               EvGenerateVideos (API_KEY H) (request prompt b64 file ratio)
                 (inr op0)] ++ trace l ++ rest)
           = waits (trace l) + waits rest) as Hw.
  { intros rest. rewrite <- waits_app. reflexivity. }
  assert (forall rest,
           existsb isFetch
             ([EvReadAsDataURL file (fst (readAsDataURL H file s));
               EvProgress (message_at 0);
               EvGenerateVideos (API_KEY H) (request prompt b64 file ratio)
                 (inr op0)] ++ trace l ++ rest)
           = existsb isFetch rest) as Hx.
  { intros rest. cbn [app existsb isFetch orb]. now rewrite existsb_app, Hf. }
  destruct (outcome l) as [op|e|]; cbn [trace].
  - rewrite Hpm, Hw, Hx, download_waits, Nat.add_0_r, Hm.
    now rewrite download_progress.
  - rewrite <- (app_nil_r (trace l)), Hpm, Hw, Hx, Hm.
    cbn [waits filter length existsb progressMessages flat_map].
    now rewrite Nat.add_0_r.
  - rewrite <- (app_nil_r (trace l)), Hpm, Hw, Hx, Hm.
    cbn [waits filter length existsb progressMessages flat_map].
    now rewrite Nat.add_0_r.
Qed.

(** X7.  A run resolves only with a video it has downloaded: when
    [generateVideo] resolves with [url], the run ends with the download
    notice, a download at the location of the last handle observed (a
    finished one) followed by the key, answered with a status from 200 to
    299, the read of the body as a blob, and the making of [url] for that
    blob. *)
Theorem resolved_means_downloaded (fuel : nat) (prompt : string)
    (file : File) (ratio : AspectRatio) (s : W) (url : string) :
  let g := generateVideo H fuel prompt file ratio s in
  outcome g = Resolved url ->
  exists pre op link resp b,
    trace g
    = pre ++ [ EvProgress "Downloading your generated video...";
               EvFetch (link ++ "&key=" ++ Js.interpolate (API_KEY H))
                 (inr resp);
               EvBlob resp (inr b);
               EvCreateObjectURL b url ]
    /\ lastObserved None pre = Some op
    /\ done op = true
    /\ downloadLink op = Some link
    /\ link <> ""
    /\ 200 <= status resp <= 299.
Proof.
  intros g. subst g. rewrite generateVideo_run. cbv beta zeta.
  destruct (settle_reader _) as [b64|e|]; try discriminate.
  destruct (generateVideos H (API_KEY H) _ _) as [[e|op0] s2]; [discriminate|].
  pose proof (pollLoop_Polled H fuel 1 op0 s2) as Hp.
  set (l := pollLoop H fuel 1 op0 s2) in *.
  destruct (outcome l) as [op|e|] eqn:Ho; cbn [trace outcome];
    try discriminate.
  destruct (Polled_resolved Hp eq_refl) as (Hd & Hl & _).
  rewrite download_run.
  destruct (downloadLink op) as [link|] eqn:Hlink; [|discriminate].
  destruct (Js.truthy (Some link)) eqn:Ht; cbn [negb]; [|discriminate].
  cbv zeta. cbn [Js.interpolate].
  destruct (fetch H _ _) as [[e|resp] s1]; [discriminate|].
  destruct (ok resp) eqn:Hok; cbn [negb]; [|discriminate].
  destruct (blob H resp s1) as [[e|b] s3]; [discriminate|].
  cbn [trace outcome]. intros [= <-].
  exists ([EvReadAsDataURL file (fst (readAsDataURL H file s));
           EvProgress (message_at 0);
           EvGenerateVideos (API_KEY H) (request prompt b64 file ratio)
             (inr op0)] ++ trace l), op, link, resp, b.
  split; [now rewrite <- app_assoc|].
  split; [cbn [app lastObserved observed]; exact Hl|].
  split; [exact Hd|]. split; [exact Hlink|]. split.
  - intros ->. discriminate Ht.
  - now apply ok_spec.
Qed.

End RunFacts.

(** ** The page *)

Lemma last_cons {B : Type} (a d : B) (l : list B) : last (a :: l) d = last l a.
Proof.
  revert a d. induction l as [|b l IH]; intros a d; [reflexivity|].
  change (last (a :: b :: l) d) with (last (b :: l) d).
  now rewrite (IH b d), (IH b a).
Qed.

Lemma last_map_seq {B : Type} (f : nat -> B) (c n : nat) :
  last (map f (seq (S c) n)) (f c) = f (c + n).
Proof.
  revert c. induction n as [|n IH]; intros c; cbn [seq map].
  - now rewrite Nat.add_0_r.
  - rewrite last_cons, IH. f_equal. lia.
Qed.

(** The progress callbacks leave the last message reported. *)
Lemma commit_progress_last (tr : list Event) (st : AppState) :
  commit st (progressUpdates tr)
  = update st (SetLoadingMessage
                 (last (progressMessages tr) (loadingMessage st))).
Proof.
  revert st. induction tr as [|ev tr IH]; intros st.
  - now destruct st.
  - destruct ev; try exact (IH st).
    change (progressUpdates (EvProgress message :: tr))
      with (SetLoadingMessage message :: progressUpdates tr).
    change (progressMessages (EvProgress message :: tr))
      with (message :: progressMessages tr).
    cbn [commit fold_left]. fold (commit (update st (SetLoadingMessage message))
                                    (progressUpdates tr)).
    rewrite IH, last_cons. reflexivity.
Qed.

Section AttemptFacts.

Variable W : Type.
Variable H : Host W.

(** The state the submit handler leaves, by the standing of the run. *)
Lemma attempt_state (fuel : nat) (st : AppState) (s : W) (file : File) :
  imageFile st = Some file ->
  apiKeySelected st = true ->
  let r := generateVideo H fuel (prompt st) file (aspectRatio st) s in
  commit st (updates (handleGenerateVideo H fuel st s))
  = match outcome r with
    | Resolved url =>
        mkApp true (prompt st) (Some file) (previewUrl st) (aspectRatio st)
          false "" (Some url) None
    | Rejected e =>
        mkApp (negb (credentialSignature e)) (prompt st) (Some file)
          (previewUrl st) (aspectRatio st) false "" None
          (Some (if credentialSignature e
                 then "Your API key is invalid or has been revoked. Please select a new key."
                 else Js.or_else (message_of e) "An unknown error occurred."))
    | Pending =>
        mkApp true (prompt st) (Some file) (previewUrl st) (aspectRatio st)
          true (last (progressMessages (trace r)) (loadingMessage st))
          None None
    end.
Proof.
  intros Hf Hk r. subst r. unfold handleGenerateVideo.
  rewrite Hf, Hk. cbn [negb updates].
  rewrite commit_app, commit_app, commit_progress_last.
  destruct (outcome (generateVideo H fuel (prompt st) file (aspectRatio st) s))
    as [url|e|].
  - cbn. now rewrite Hf, Hk.
  - unfold catchUpdates. rewrite catch_matches.
    destruct (credentialSignature e); cbn; now rewrite Hf, ?Hk.
  - cbn. now rewrite Hf, Hk.
Qed.

(** The last message of an unfinished run. *)
Lemma pending_message (fuel : nat) (prompt : string) (file : File)
    (ratio : AspectRatio) (s : W) (d : string) :
  let g := generateVideo H fuel prompt file ratio s in
  outcome g = Pending ->
  last (progressMessages (trace g)) d = message_at (fuel mod 10).
Proof.
  intros g. subst g. rewrite generateVideo_run. cbv beta zeta.
  destruct (fst (readAsDataURL H file s)) as [result| |];
    cbn [settle_reader]; try discriminate.
  destruct (generateVideos H (API_KEY H) _ _) as [[e|op0] s2]; [discriminate|].
  pose proof (pollLoop_Polled H fuel 1 op0 s2) as Hp.
  pose proof (Polled_progress Hp) as Hm.
  pose proof (pollLoop_Pending H fuel 1 op0 s2) as Hw.
  destruct (outcome (pollLoop H fuel 1 op0 s2)) as [op|e|];
    cbn [outcome trace]; try discriminate.
  - rewrite download_run.
    destruct (negb (Js.truthy (downloadLink op))); [discriminate|].
    cbv zeta. destruct (fetch H _ _) as [[e|resp] s1]; [discriminate|].
    destruct (negb (ok resp)); [discriminate|].
    destruct (blob H resp s1) as [[e|b] s3]; discriminate.
  - intros _. unfold progressMessages in *. cbn [app flat_map].
    rewrite Hm, (Hw eq_refl), last_cons.
    exact (last_map_seq (fun n => message_at (n mod 10)) 0 fuel).
Qed.

End AttemptFacts.

Lemma actionButton_enabled (st : AppState) :
  actionButton st = GenerateVideo false ->
  Js.truthy (generatedVideoUrl st) = false
  /\ isLoading st = false
  /\ (exists file, imageFile st = Some file)
  /\ apiKeySelected st = true.
Proof.
  unfold actionButton. destruct (Js.truthy (generatedVideoUrl st));
    [discriminate|].
  destruct (isLoading st), (imageFile st) as [file|], (apiKeySelected st);
    try discriminate.
  intros _. repeat split. now exists file.
Qed.

Section PageFacts.

Variable W : Type.
Variable H : Host W.
Variable A : Studio W.

(** X8.  The probe is silent: [checkApiKey] makes one setter call, on the
    gate, and never sets the error.  The gate is set active exactly when
    [window.aistudio] is there and the probe resolves with [true]; a missing
    [window.aistudio] (the probe is then not called) or a probe that throws
    sets it inactive. *)
Theorem probe_is_silent (st : AppState) (s : W) :
  let gate :=
    aistudio A
    && match fst (hasSelectedApiKey A s) with
       | inr selected => selected
       | inl _ => false
       end in
  fst (checkApiKey A s) = [SetApiKeySelected gate]
  /\ commit st (fst (checkApiKey A s))
     = mkApp gate (prompt st) (imageFile st) (previewUrl st) (aspectRatio st)
         (isLoading st) (loadingMessage st) (generatedVideoUrl st) (error st)
  /\ (aistudio A = false -> snd (checkApiKey A s) = s).
Proof.
  unfold checkApiKey. destruct (aistudio A); cbn [andb].
  - destruct (hasSelectedApiKey A s) as [[e|[|]] s']; cbn [fst snd];
      repeat split; discriminate.
  - repeat split.
Qed.

(** X9.  The key dialog is trusted blindly: when [openSelectKey] returns, the
    gate is set active whatever was done in the dialog, and the error is
    left as it was; when it throws, the gate is left as it was and the error
    is "Failed to open the API key selection dialog.". *)
Theorem key_dialog_is_optimistic (st : AppState) (s : W) :
  let st' := commit st (fst (handleSelectApiKey H s)) in
  (forall u,
      fst (openSelectKey H s) = inr u ->
      apiKeySelected st' = true
      /\ keySelectorShown st' = false
      /\ error st' = error st)
  /\ (forall e,
        fst (openSelectKey H s) = inl e ->
        apiKeySelected st' = apiKeySelected st
        /\ error st' = Some "Failed to open the API key selection dialog.").
Proof.
  unfold handleSelectApiKey.
  destruct (openSelectKey H s) as [[e|u] s']; cbn [fst]; split;
    intros x Hx; try discriminate Hx; now repeat split.
Qed.

(** X10.  The submit button and the guards of the handler agree: whenever
    the submit button is rendered enabled, an image is selected, the gate is
    active and the page is not loading, so the handler called by the click
    passes both guards and calls [generateVideo] on the selected image; a
    click never ends in a validation message. *)
Theorem enabled_button_starts_attempt (fuel : nat) (st : AppState) (s : W) :
  actionButton st = GenerateVideo false ->
  exists file,
    imageFile st = Some file
    /\ apiKeySelected st = true
    /\ isLoading st = false
    /\ attempt (handleGenerateVideo H fuel st s)
       = Some (generateVideo H fuel (prompt st) file (aspectRatio st) s)
    /\ dispatch H fuel st ClickAction s
       = (commit st (updates (handleGenerateVideo H fuel st s)),
          host_after (generateVideo H fuel (prompt st) file (aspectRatio st) s)).
Proof.
  intros Hb. destruct (actionButton_enabled st Hb) as (_ & Hl & (file & Hf) & Hk).
  exists file. repeat split; try assumption.
  - unfold handleGenerateVideo. now rewrite Hf, Hk.
  - unfold dispatch. rewrite Hb. unfold handleGenerateVideo.
    now rewrite Hf, Hk.
Qed.

(** X11.  What a settled attempt leaves.  After an attempt that resolved
    with [url]: the video reference [url], no error, not loading, the gate
    active.  After an attempt rejected with [e]: no video reference, the
    error, not loading, the gate inactive exactly when [e] carries the
    signature.  In both cases the prompt, the image, its preview and the
    aspect ratio are those of before, and the loading message is empty. *)
Theorem settled_attempt_state (fuel : nat) (st : AppState) (s : W)
    (file : File) :
  imageFile st = Some file ->
  apiKeySelected st = true ->
  let r := generateVideo H fuel (prompt st) file (aspectRatio st) s in
  let st' := commit st (updates (handleGenerateVideo H fuel st s)) in
  (forall url,
      outcome r = Resolved url ->
      st' = mkApp true (prompt st) (Some file) (previewUrl st) (aspectRatio st)
              false "" (Some url) None)
  /\ (forall e,
        outcome r = Rejected e ->
        st' = mkApp (negb (credentialSignature e)) (prompt st) (Some file)
                (previewUrl st) (aspectRatio st) false "" None
                (Some (if credentialSignature e
                       then "Your API key is invalid or has been revoked. Please select a new key."
                       else Js.or_else (message_of e)
                              "An unknown error occurred."))).
Proof.
  intros Hf Hk r st'. subst r st'.
  rewrite (attempt_state H fuel st s Hf Hk). cbv zeta.
  split; [intros url ->|intros e ->]; reflexivity.
Qed.

(** X14.  After a failure: when an attempt is rejected with an error that
    does not carry the signature, the submit button is enabled again for a
    new attempt and no key selector is shown; when the error carries the
    signature, the submit button is disabled and the key selector is
    shown. *)
Theorem retry_after_failure (fuel : nat) (st : AppState) (s : W)
    (file : File) (e : Thrown) :
  imageFile st = Some file ->
  apiKeySelected st = true ->
  outcome (generateVideo H fuel (prompt st) file (aspectRatio st) s)
  = Rejected e ->
  let st' := commit st (updates (handleGenerateVideo H fuel st s)) in
  actionButton st' = GenerateVideo (credentialSignature e)
  /\ keySelectorShown st' = credentialSignature e.
Proof.
  intros Hf Hk Ho st'. subst st'.
  rewrite (attempt_state H fuel st s Hf Hk). cbv zeta. rewrite Ho.
  unfold actionButton, keySelectorShown.
  cbn [generatedVideoUrl Js.truthy isLoading imageFile apiKeySelected orb].
  now rewrite negb_involutive.
Qed.

(** X15.  A file that cannot be read: when the reader fails, the attempt
    ends with the error "An unknown error occurred." (the reader's error
    event has no message); when the reader's result is not a string, with
    "Failed to read file as base64 string.".  In both cases the read is the
    only call the run makes (nothing is submitted), the gate stays active
    and the submit button is enabled again. *)
Theorem unreadable_file_surfaces (fuel : nat) (st : AppState) (s : W)
    (file : File) :
  imageFile st = Some file ->
  apiKeySelected st = true ->
  let r := generateVideo H fuel (prompt st) file (aspectRatio st) s in
  let st' := commit st (updates (handleGenerateVideo H fuel st s)) in
  let rd := fst (readAsDataURL H file s) in
  (rd = ReaderFailed \/ rd = LoadedOther) ->
  trace r = [EvReadAsDataURL file rd]
  /\ error st'
     = Some (match rd with
             | ReaderFailed => "An unknown error occurred."
             | _ => "Failed to read file as base64 string."
             end)
  /\ apiKeySelected st' = true
  /\ actionButton st' = GenerateVideo false.
Proof.
  intros Hf Hk r st' rd Hrd. subst r st' rd.
  rewrite (attempt_state H fuel st s Hf Hk). cbv zeta.
  rewrite generateVideo_run. cbv beta zeta.
  destruct Hrd as [-> | ->]; cbn [settle_reader trace outcome];
    now repeat split.
Qed.

Lemma probe_state (st : AppState) (s : W) :
  exists gate,
    fst (let (us, s') := checkApiKey A s in (commit st us, s'))
    = mkApp gate (prompt st) (imageFile st) (previewUrl st) (aspectRatio st)
        (isLoading st) (loadingMessage st) (generatedVideoUrl st) (error st).
Proof.
  unfold checkApiKey. destruct (aistudio A).
  - destruct (hasSelectedApiKey A s) as [[e|[|]] s']; eexists; reflexivity.
  - eexists; reflexivity.
Qed.

Lemma coherent_initial : coherent initialState.
Proof. unfold coherent. cbn. intuition discriminate. Qed.

Lemma coherent_frame (st : AppState) gate text ratio err :
  coherent st ->
  coherent (mkApp gate text (imageFile st) (previewUrl st) ratio
              (isLoading st) (loadingMessage st) (generatedVideoUrl st) err).
Proof. unfold coherent. cbn. tauto. Qed.

Lemma dispatch_coherent (fuel : nat) (st : AppState) (ev : UIEvent) (s : W) :
  coherent st -> coherent (fst (dispatch H fuel st ev s)).
Proof.
  intros Hc. destruct ev as [files|value|ratio| |]; unfold dispatch.
  - unfold mainView.
    destruct (Js.truthy (generatedVideoUrl st)) eqn:Hv; [exact Hc|].
    destruct (isLoading st) eqn:Hl; [exact Hc|].
    unfold handleFileChange, handleImageSelect.
    destruct files as [[|file files]|]; try exact Hc.
    destruct (createObjectURL H (BlobOfFile file) s) as [url s'].
    cbn [fst]. unfold coherent in *. cbn. rewrite Hl.
    intuition discriminate.
  - destruct (isLoading st); [exact Hc|]. cbn [fst commit fold_left update].
    now apply coherent_frame.
  - destruct (isLoading st); [exact Hc|]. cbn [fst commit fold_left update].
    now apply coherent_frame.
  - destruct (actionButton st) as [|[|]] eqn:Hb; try exact Hc.
    + unfold actionButton in Hb.
      destruct (Js.truthy (generatedVideoUrl st)) eqn:Hv; [|discriminate Hb].
      destruct Hc as (_ & Hm & Hl & _). specialize (Hl Hv).
      unfold coherent. cbn. rewrite Hl. intuition discriminate.
    + destruct (actionButton_enabled st Hb) as (_ & Hl & (file & Hf) & Hk).
      cbn [fst]. rewrite (attempt_state H fuel st s Hf Hk). cbv zeta.
      destruct Hc as (Hp & _ & _ & _).
      assert (previewUrl st <> None) as Hpre
        by (intros Hn; apply Hp in Hn; congruence).
      destruct (outcome (generateVideo H fuel (prompt st) file
                           (aspectRatio st) s)) as [url|e|];
        unfold coherent; cbn; intuition (discriminate || congruence).
  - unfold keySelectorShown. destruct (negb (apiKeySelected st)); [|exact Hc].
    unfold handleSelectApiKey.
    destruct (openSelectKey H s) as [[e|u] s']; cbn [fst commit fold_left update];
      now apply coherent_frame.
Qed.

Lemma happen_coherent (fuel : nat) (st : AppState) (h : Happening) (s : W) :
  coherent st -> coherent (fst (happen H A fuel st h s)).
Proof.
  intros Hc. destruct h as [ev|]; cbn [happen].
  - now apply dispatch_coherent.
  - destruct (probe_state st s) as [gate ->]. now apply coherent_frame.
Qed.

(** X16.  The page stays coherent: in every session, whatever the user does
    and whenever the probe settles, the preview is there exactly when an
    image is selected, the loading message is empty unless the page is
    loading, the page is not loading while it shows a video, and it loads
    only with an image selected and no video reference. *)
Theorem session_coherent (fuel : nat) (hs : list Happening) (s : W) :
  coherent (fst (session H A fuel initialState hs s)).
Proof.
  pose proof coherent_initial as Hc. revert Hc s.
  generalize initialState as st.
  induction hs as [|h hs IH]; intros st Hc s; cbn [session]; [exact Hc|].
  pose proof (@happen_coherent fuel st h s Hc) as Hc'.
  destruct (happen H A fuel st h s) as [st' s']. now apply IH.
Qed.

(** X17.  Choosing files.  With the image picker on the page, a change event
    whose file list is missing or empty changes nothing; one with files
    selects the first of them and sets the preview to the object URL made
    for it, the other files being ignored and every other field, the error
    included, staying as it was.  When the picker is not on the page (a
    video is shown, or the page is loading) the event does nothing. *)
Theorem file_choice (fuel : nat) (st : AppState) (s : W) :
  (forall preview,
      mainView st = ImageUpload preview ->
      dispatch H fuel st (ChangeFiles None) s = (st, s)
      /\ dispatch H fuel st (ChangeFiles (Some [])) s = (st, s)
      /\ forall file others,
           dispatch H fuel st (ChangeFiles (Some (file :: others))) s
           = (mkApp (apiKeySelected st) (prompt st) (Some file)
                (Some (fst (createObjectURL H (BlobOfFile file) s)))
                (aspectRatio st) (isLoading st) (loadingMessage st)
                (generatedVideoUrl st) (error st),
              snd (createObjectURL H (BlobOfFile file) s)))
  /\ ((forall preview, mainView st <> ImageUpload preview) ->
      forall files, dispatch H fuel st (ChangeFiles files) s = (st, s)).
Proof.
  split.
  - intros preview Hv. unfold dispatch. rewrite Hv.
    unfold handleFileChange, handleImageSelect. cbn [commit fold_left].
    split; [now destruct st|]. split; [now destruct st|].
    intros file others.
    destruct (createObjectURL H (BlobOfFile file) s) as [url s'].
    reflexivity.
  - intros Hv files. unfold dispatch.
    destruct (mainView st) as [src|m|preview]; try reflexivity.
    now destruct (Hv preview).
Qed.

End PageFacts.

(** ** Sessions *)

Section SessionFacts.

Variable W : Type.
Variable H : Host W.
Variable A : Studio W.

(** Only the submit handler touches the loading flag and the loading
    message. *)
Lemma dispatch_loading_frame (fuel : nat) (st : AppState) (ev : UIEvent)
    (s : W) :
  actionButton st <> GenerateVideo false \/ ev <> ClickAction ->
  isLoading (fst (dispatch H fuel st ev s)) = isLoading st
  /\ loadingMessage (fst (dispatch H fuel st ev s)) = loadingMessage st.
Proof.
  intros Hno. destruct ev as [files|value|ratio| |]; unfold dispatch.
  - destruct (mainView st); try now split.
    unfold handleFileChange, handleImageSelect.
    destruct files as [[|file files]|]; try now split.
    destruct (createObjectURL H (BlobOfFile file) s) as [url s']. now split.
  - destruct (isLoading st) eqn:Hl; cbn; now rewrite ?Hl.
  - destruct (isLoading st) eqn:Hl; cbn; now rewrite ?Hl.
  - destruct (actionButton st) as [|[|]]; try now split.
    destruct Hno as [Hno|Hno]; now destruct Hno.
  - destruct (keySelectorShown st); [|now split].
    unfold handleSelectApiKey.
    destruct (openSelectKey H s) as [[e|u] s']; now split.
Qed.

(** In a session whose attempts are followed for [fuel] turns, a loading
    page carries the message of index [fuel mod 10]. *)
Lemma happen_loading (fuel : nat) (st : AppState) (h : Happening) (s : W) :
  (isLoading st = true -> loadingMessage st = message_at (fuel mod 10)) ->
  isLoading (fst (happen H A fuel st h s)) = true ->
  loadingMessage (fst (happen H A fuel st h s)) = message_at (fuel mod 10).
Proof.
  intros Hj. destruct h as [ev|]; cbn [happen].
  - assert ((actionButton st = GenerateVideo false /\ ev = ClickAction)
            \/ (actionButton st <> GenerateVideo false \/ ev <> ClickAction))
      as [[Hb ->]|Hno].
    { destruct ev; try (right; right; discriminate).
      destruct (actionButton st) as [|[|]];
        [right; left; discriminate | right; left; discriminate
        | left; now split]. }
    + destruct (actionButton_enabled st Hb) as (_ & _ & (file & Hf) & Hk).
      unfold dispatch. rewrite Hb. cbn [fst].
      rewrite (attempt_state H fuel st s Hf Hk). cbv zeta.
      destruct (outcome (generateVideo H fuel (prompt st) file
                           (aspectRatio st) s)) as [url|e|] eqn:Ho;
        cbn [isLoading loadingMessage]; try discriminate.
      intros _. now apply pending_message.
    + destruct (@dispatch_loading_frame fuel st ev s Hno) as [-> ->]. exact Hj.
  - destruct (probe_state A st s) as [gate ->]. exact Hj.
Qed.

Lemma session_keeps (fuel : nat) (hs : list Happening) (st : AppState)
    (s : W) :
  coherent st ->
  (isLoading st = true -> loadingMessage st = message_at (fuel mod 10)) ->
  coherent (fst (session H A fuel st hs s))
  /\ (isLoading (fst (session H A fuel st hs s)) = true ->
      loadingMessage (fst (session H A fuel st hs s))
      = message_at (fuel mod 10)).
Proof.
  revert st s. induction hs as [|h hs IH]; intros st s Hc Hj; cbn [session];
    [now split|].
  pose proof (@happen_coherent _ H A fuel st h s Hc) as Hc'.
  pose proof (@happen_loading fuel st h s Hj) as Hj'.
  destruct (happen H A fuel st h s) as [st' s']. now apply IH.
Qed.

Lemma session_from_initial (fuel : nat) (hs : list Happening) (s : W) :
  coherent (fst (session H A fuel initialState hs s))
  /\ (isLoading (fst (session H A fuel initialState hs s)) = true ->
      loadingMessage (fst (session H A fuel initialState hs s))
      = message_at (fuel mod 10)).
Proof.
  apply session_keeps; [apply coherent_initial | discriminate].
Qed.

(** C7, as the code has it.  The reset button is offered exactly when a
    video reference is present.  From any state with one, the click clears
    the prompt, the image, its preview, the video reference and the error,
    and keeps the gate and the aspect ratio; in every session the page is
    then not loading either, so it lands exactly in the idle state.  After
    an attempt that was rejected no reset is offered: the submit button is,
    and the image and the prompt are still those of the attempt, next to
    the error. *)
Theorem reset_lands_in_idle (fuel : nat) :
  (forall st,
      Js.truthy (generatedVideoUrl st) = true ->
      actionButton st = CreateAnotherVideo
      /\ clickReset st
         = Some (mkApp (apiKeySelected st) "" None None (aspectRatio st)
                   (isLoading st) (loadingMessage st) None None))
  /\ (forall hs s,
        let st := fst (session H A fuel initialState hs s) in
        Js.truthy (generatedVideoUrl st) = true ->
        clickReset st = Some (idleState (apiKeySelected st) (aspectRatio st)))
  /\ (forall st,
        Js.truthy (generatedVideoUrl st) = false -> clickReset st = None)
  /\ (forall st s file e,
        imageFile st = Some file ->
        apiKeySelected st = true ->
        outcome (generateVideo H fuel (prompt st) file (aspectRatio st) s)
        = Rejected e ->
        let st' := commit st (updates (handleGenerateVideo H fuel st s)) in
        (exists disabled, actionButton st' = GenerateVideo disabled)
        /\ clickReset st' = None
        /\ imageFile st' = Some file
        /\ prompt st' = prompt st
        /\ error st' <> None).
Proof.
  assert (forall st,
             Js.truthy (generatedVideoUrl st) = true ->
             actionButton st = CreateAnotherVideo
             /\ clickReset st
                = Some (mkApp (apiKeySelected st) "" None None (aspectRatio st)
                          (isLoading st) (loadingMessage st) None None))
    as Hready.
  { intros st Hv. unfold clickReset, actionButton. rewrite Hv. now split. }
  split; [exact Hready|]. split; [|split].
  - intros hs s st Hv. destruct (Hready st Hv) as [_ ->].
    destruct (session_from_initial fuel hs s) as [(_ & Hm & Hl & _) _].
    fold st in Hm, Hl. specialize (Hl Hv). rewrite Hl, (Hm Hl). reflexivity.
  - intros st Hv. unfold clickReset, actionButton. now rewrite Hv.
  - intros st s file e Hf Hk Ho st'. subst st'.
    rewrite (attempt_state H fuel st s Hf Hk). cbv zeta. rewrite Ho.
    unfold clickReset, actionButton.
    cbn [generatedVideoUrl Js.truthy imageFile prompt error].
    repeat split; [now eexists | discriminate].
Qed.



End SessionFacts.

(** ** More scenarios *)

Module PageScenarioFacts.
Import Scenario PageScenario.

Lemma encoder_without_comma_witness :
  outcome (fileToBase64 (host commaFree) photo 0) = Resolved None
  /\ exists r rest,
       trace (run commaFree)
       = EvReadAsDataURL photo (LoadedString "data:")
           :: EvProgress (message_at 0)
           :: EvGenerateVideos (Some "KEY")
                (request "a cat running" None photo Ratio16x9) r
           :: rest
       /\ imageBytes (image (request "a cat running" None photo Ratio16x9))
          = None.
Proof.
  apply (encoder_without_comma (host commaFree) 5 "a cat running" photo
           Ratio16x9 0 (result := "data:")); reflexivity.
Defined.

Lemma encoder_takes_second_segment_witness :
  outcome (fileToBase64 (host twoCommas) photo 0) = Resolved (Some "AAAA").
Proof.
  apply (encoder_takes_second_segment (host twoCommas) photo 0
           "data:image/png;base64" "AAAA" "BBBB"); reflexivity.
Defined.

Lemma calls_fail_fast_witness :
  skipn 9 (trace (run pollFails)) = []
  /\ outcome (run pollFails) = Rejected (JsError "503: Service unavailable.").
Proof.
  apply (@calls_fail_fast _ (host pollFails) 5 "a cat running" photo
           Ratio16x9 0
           (firstn 8 (trace (run pollFails)))
           (skipn 9 (trace (run pollFails)))
           (EvGetVideosOperation (Some "KEY") running
              (inl (JsError "503: Service unavailable.")))
           (JsError "503: Service unavailable.")); reflexivity.
Defined.

Lemma resolved_means_downloaded_witness :
  exists pre op link resp b,
    trace (run happy)
    = pre ++ [ EvProgress "Downloading your generated video...";
               EvFetch (link ++ "&key=" ++ Js.interpolate (Some "KEY"))
                 (inr resp);
               EvBlob resp (inr b);
               EvCreateObjectURL b "blob:https://app.example/0001" ]
    /\ lastObserved None pre = Some op
    /\ done op = true
    /\ downloadLink op = Some link
    /\ link <> ""
    /\ 200 <= status resp <= 299.
Proof.
  apply (resolved_means_downloaded (host happy) 5 "a cat running" photo
           Ratio16x9 0 (url := "blob:https://app.example/0001")).
  reflexivity.
Defined.

Lemma probe_is_silent_witness :
  fst (checkApiKey noStudio 7) = [SetApiKeySelected false]
  /\ snd (checkApiKey noStudio 7) = 7
  /\ fst (checkApiKey probeThrows 7) = [SetApiKeySelected false]
  /\ fst (checkApiKey keyed 7) = [SetApiKeySelected true].
Proof.
  destruct (probe_is_silent noStudio armed 7) as (Hcall & _ & Hhost).
  split; [exact Hcall|]. split; [apply Hhost; reflexivity|].
  split.
  - exact (proj1 (probe_is_silent probeThrows armed 7)).
  - exact (proj1 (probe_is_silent keyed armed 7)).
Defined.

Lemma key_dialog_is_optimistic_witness :
  (apiKeySelected (commit initialState
                     (fst (handleSelectApiKey (host happy) 0))) = true
   /\ keySelectorShown (commit initialState
                          (fst (handleSelectApiKey (host happy) 0))) = false
   /\ error (commit initialState (fst (handleSelectApiKey (host happy) 0)))
      = None)
  /\ (apiKeySelected (commit initialState
                        (fst (handleSelectApiKey dialogFails 0))) = false
      /\ error (commit initialState (fst (handleSelectApiKey dialogFails 0)))
         = Some "Failed to open the API key selection dialog.").
Proof.
  split.
  - apply (proj1 (key_dialog_is_optimistic (host happy) initialState 0) tt).
    reflexivity.
  - apply (proj2 (key_dialog_is_optimistic dialogFails initialState 0)
             (JsError "aistudio is undefined")).
    reflexivity.
Defined.

Lemma enabled_button_starts_attempt_witness :
  exists file,
    imageFile armed = Some file
    /\ apiKeySelected armed = true
    /\ isLoading armed = false
    /\ attempt (handleGenerateVideo (host happy) 5 armed 0)
       = Some (generateVideo (host happy) 5 (prompt armed) file
                 (aspectRatio armed) 0)
    /\ dispatch (host happy) 5 armed ClickAction 0
       = (commit armed (updates (handleGenerateVideo (host happy) 5 armed 0)),
          host_after (generateVideo (host happy) 5 (prompt armed) file
                        (aspectRatio armed) 0)).
Proof.
  apply (enabled_button_starts_attempt (host happy) 5 armed 0). reflexivity.
Defined.

Lemma settled_attempt_state_witness :
  after happy armed
  = mkApp true "a cat running" (Some photo)
      (Some "blob:https://app.example/0000") Ratio16x9 false ""
      (Some "blob:https://app.example/0001") None
  /\ after revoked armed
     = mkApp false "a cat running" (Some photo)
         (Some "blob:https://app.example/0000") Ratio16x9 false "" None
         (Some "Your API key is invalid or has been revoked. Please select a new key.").
Proof.
  split.
  - apply (proj1 (settled_attempt_state (host happy) 5 armed 0 (file := photo)
                    eq_refl eq_refl) "blob:https://app.example/0001").
    reflexivity.
  - apply (proj2 (settled_attempt_state (host revoked) 5 armed 0
                    (file := photo) eq_refl eq_refl)
             (JsError "404: Requested entity was not found.")).
    reflexivity.
Defined.

Lemma reset_lands_in_idle_witness :
  (error (fst (session dialogFailsLater noStudio 5 initialState
                 readyWithError 0))
   = Some "Failed to open the API key selection dialog."
   /\ actionButton (fst (session dialogFailsLater noStudio 5 initialState
                           readyWithError 0))
      = CreateAnotherVideo
   /\ clickReset (fst (session dialogFailsLater noStudio 5 initialState
                         readyWithError 0))
      = Some (idleState false Ratio16x9))
  /\ clickReset initialState = None
  /\ ((exists disabled, actionButton (after quota armed) = GenerateVideo disabled)
      /\ clickReset (after quota armed) = None
      /\ imageFile (after quota armed) = Some photo
      /\ prompt (after quota armed) = "a cat running"
      /\ error (after quota armed) <> None).
Proof.
  destruct (reset_lands_in_idle dialogFailsLater noStudio 5)
    as (Hready & Hsession & Hnone & _).
  split; [|split].
  - split; [reflexivity|]. split.
    + apply (Hready (fst (session dialogFailsLater noStudio 5 initialState
                            readyWithError 0))).
      reflexivity.
    + apply (Hsession readyWithError 0). reflexivity.
  - apply Hnone. reflexivity.
  - destruct (reset_lands_in_idle (host quota) noStudio 5)
      as (_ & _ & _ & Hfailed).
    apply (Hfailed armed 0 photo (JsError "429: Resource has been exhausted."));
      reflexivity.
Defined.



Lemma retry_after_failure_witness :
  (actionButton (after quota armed) = GenerateVideo false
   /\ keySelectorShown (after quota armed) = false)
  /\ (actionButton (after revoked armed) = GenerateVideo true
      /\ keySelectorShown (after revoked armed) = true).
Proof.
  split.
  - apply (retry_after_failure (host quota) 5 armed 0 (file := photo)
             (e := JsError "429: Resource has been exhausted."));
      reflexivity.
  - apply (retry_after_failure (host revoked) 5 armed 0 (file := photo)
             (e := JsError "404: Requested entity was not found."));
      reflexivity.
Defined.

Lemma unreadable_file_surfaces_witness :
  (trace (run unreadable) = [EvReadAsDataURL photo ReaderFailed]
   /\ error (after unreadable armed) = Some "An unknown error occurred."
   /\ apiKeySelected (after unreadable armed) = true
   /\ actionButton (after unreadable armed) = GenerateVideo false)
  /\ (trace (run binary) = [EvReadAsDataURL photo LoadedOther]
      /\ error (after binary armed)
         = Some "Failed to read file as base64 string."
      /\ apiKeySelected (after binary armed) = true
      /\ actionButton (after binary armed) = GenerateVideo false).
Proof.
  split.
  - apply (unreadable_file_surfaces (host unreadable) 5 armed 0
             (file := photo) eq_refl eq_refl).
    left. reflexivity.
  - apply (unreadable_file_surfaces (host binary) 5 armed 0
             (file := photo) eq_refl eq_refl).
    right. reflexivity.
Defined.

Lemma file_choice_witness :
  dispatch (host happy) 5 initialState (ChangeFiles (Some [])) 0
  = (initialState, 0)
  /\ dispatch (host happy) 5 initialState
       (ChangeFiles (Some [photo; mkFile "second.png" "image/png"])) 0
     = (mkApp false "" (Some photo) (Some "blob:https://app.example/0001")
          Ratio16x9 false "" None None, 0)
  /\ dispatch (host happy) 5 (after happy armed) (ChangeFiles (Some [photo])) 0
     = (after happy armed, 0).
Proof.
  destruct (file_choice (host happy) 5 initialState 0) as [Hshown _].
  destruct (Hshown None eq_refl) as (_ & Hempty & Hfirst).
  split; [exact Hempty|]. split; [exact (Hfirst photo _)|].
  apply (proj2 (file_choice (host happy) 5 (after happy armed) 0)).
  intros preview Hv. discriminate Hv.
Defined.

(** A session: the probe finds no key, the user opens the dialog, picks the
    photo and submits; the service refuses the key, and the page is back
    behind the key selector with the photo still selected. *)
Example revoked_session :
  fst (session (host revoked) noStudio 5 initialState
         [ ProbeSettles; User ClickSelectKey;
           User (ChangeFiles (Some [photo])); User ClickAction ] 0)
  = mkApp false "" (Some photo) (Some "blob:https://app.example/0001")
      Ratio16x9 false "" None
      (Some "Your API key is invalid or has been revoked. Please select a new key.").
Proof. reflexivity. Qed.

End PageScenarioFacts.
